(** * Clam music cog: vote gate, privilege checks, loop flags, volume,
      inactivity monitor and song resolution

    A shallow embedding of [src/cogs/music.py].  Handlers of the cog are
    functions in a small state/exception/log monad: the state is the object a
    handler mutates, an exception leaves the state as it was when it was
    raised, and the log records what the handler sends out (messages,
    reactions, HTTP posts) and the calls it makes into [music_player.Player],
    which is not part of the sources under study. *)

From Stdlib Require Import ZArith QArith String Ascii List Bool Lia.
From stdpp Require Import base gmap strings pretty list.

Local Open Scope string_scope.
Local Open Scope Z_scope.

(** ** Python values *)

Module Py.

(** Exceptions a handler can raise. *)
Inductive exn :=
| AttributeError      (* attribute access on [None] *)
| KeyError
| TypeError           (* call with the wrong number of arguments *)
| UnboundLocalError
| IndexError
| CheckFailure        (* a [commands.check] predicate returned false *)
| TimeoutError        (* [asyncio.TimeoutError] *)
| BadArgument
| BinFetchingError (status : Z)
| YTDLError (msg : string)
| ClientError         (* aiohttp failure inside [Music.post] *)
| CommandError (msg : string).   (* [commands.CommandError] *)

Inductive result (A : Type) :=
| Ok (a : A)
| Raise (e : exn).
Arguments Ok {A} a.
Arguments Raise {A} e.

(** [len(x)] of a list. *)
Definition len {A} (l : list A) : Z := Z.of_nat (length l).

(** [sep.join(l)]. *)
Definition join (sep : string) (l : list string) : string := String.concat sep l.

Definition is_lower (c : ascii) : bool :=
  let n := nat_of_ascii c in (97 <=? n)%nat && (n <=? 122)%nat.
Definition is_upper (c : ascii) : bool :=
  let n := nat_of_ascii c in (65 <=? n)%nat && (n <=? 90)%nat.
Definition to_upper (c : ascii) : ascii :=
  if is_lower c then ascii_of_nat (nat_of_ascii c - 32) else c.
Definition to_lower (c : ascii) : ascii :=
  if is_upper c then ascii_of_nat (nat_of_ascii c + 32) else c.

Fixpoint lower (s : string) : string :=
  match s with
  | EmptyString => EmptyString
  | String c s' => String (to_lower c) (lower s')
  end.

(** [s.capitalize()] on ASCII text: first character upper case, the rest
    lower case. *)
Definition capitalize (s : string) : string :=
  match s with
  | EmptyString => EmptyString
  | String c s' => String (to_upper c) (lower s')
  end.

(** [str(n)] for an [int]. *)
Definition str (n : Z) : string := pretty n.

End Py.
Export Py.

(** ** Discord objects *)

Module Role.
Record t := { id : Z; name : string }.
(** [discord.Role.__eq__] compares ids. *)
Definition eqb (a b : t) : bool := id a =? id b.
End Role.

Module Member.
Record t := {
  id : Z;
  bot : bool;
  manage_guild : bool;      (* [guild_permissions.manage_guild] *)
  roles : list Role.t
}.
(** [discord.Member.__eq__] compares ids. *)
Definition eqb (a b : t) : bool := id a =? id b.
End Member.

Module Channel.
Record t := { id : Z; members : list Member.t }.
Definition eqb (a b : t) : bool := id a =? id b.
End Channel.

(** [discord.utils.get(roles, name=n)]: the first role of that name. *)
Definition utils_get (rs : list Role.t) (n : string) : option Role.t :=
  find (fun r => String.eqb (Role.name r) n) rs.

(** [r in roles] where [r] may be [None]: no role equals [None]. *)
Definition role_in (r : option Role.t) (rs : list Role.t) : bool :=
  match r with
  | None => false
  | Some r => existsb (Role.eqb r) rs
  end.

(** ** Songs, the media sink and the player *)

Module Song.
Record t := {
  title : string;
  url : string;
  requester : Member.t;
  source_volume : Q          (* [song.source.volume] *)
}.
Definition set_source_volume (v : Q) (s : t) : t :=
  {| title := title s; url := url s; requester := requester s;
     source_volume := v |}.
End Song.

(** What the voice client is doing: [is_playing()], [is_paused()]. *)
Inductive sink_status := SinkIdle | SinkPlaying | SinkPaused.

Module VoiceClient.
Record t := {
  channel : Channel.t;
  status : sink_status;
  volume : option Q          (* attribute written by the [volume] command *)
}.
Definition is_playing (v : t) : bool :=
  match status v with SinkPlaying => true | _ => false end.
Definition is_paused (v : t) : bool :=
  match status v with SinkPaused => true | _ => false end.
Definition set_status (s : sink_status) (v : t) : t :=
  {| channel := channel v; status := s; volume := volume v |}.
Definition set_volume (q : Q) (v : t) : t :=
  {| channel := channel v; status := status v; volume := Some q |}.
(** [move_to(destination)] *)
Definition move_to (c : Channel.t) (v : t) : t :=
  {| channel := c; status := status v; volume := volume v |}.
End VoiceClient.

Module Player.
Record t := {
  text_channel : Z;
  voice : option VoiceClient.t;
  current : option Song.t;
  songs : list Song.t;
  volume : Q;
  loop : bool;
  loop_queue : bool;
  _notify : bool;
  _votes : gmap string (gset Z);
  destroyed : bool
}.

Definition set_voice v (p : t) : t :=
  {| text_channel := text_channel p; voice := v; current := current p;
     songs := songs p; volume := volume p; loop := loop p;
     loop_queue := loop_queue p; _notify := _notify p; _votes := _votes p;
     destroyed := destroyed p |}.
Definition set_current c (p : t) : t :=
  {| text_channel := text_channel p; voice := voice p; current := c;
     songs := songs p; volume := volume p; loop := loop p;
     loop_queue := loop_queue p; _notify := _notify p; _votes := _votes p;
     destroyed := destroyed p |}.
Definition set_songs q (p : t) : t :=
  {| text_channel := text_channel p; voice := voice p; current := current p;
     songs := q; volume := volume p; loop := loop p;
     loop_queue := loop_queue p; _notify := _notify p; _votes := _votes p;
     destroyed := destroyed p |}.
Definition set_volume v (p : t) : t :=
  {| text_channel := text_channel p; voice := voice p; current := current p;
     songs := songs p; volume := v; loop := loop p;
     loop_queue := loop_queue p; _notify := _notify p; _votes := _votes p;
     destroyed := destroyed p |}.
Definition set_loop b (p : t) : t :=
  {| text_channel := text_channel p; voice := voice p; current := current p;
     songs := songs p; volume := volume p; loop := b;
     loop_queue := loop_queue p; _notify := _notify p; _votes := _votes p;
     destroyed := destroyed p |}.
Definition set_loop_queue b (p : t) : t :=
  {| text_channel := text_channel p; voice := voice p; current := current p;
     songs := songs p; volume := volume p; loop := loop p;
     loop_queue := b; _notify := _notify p; _votes := _votes p;
     destroyed := destroyed p |}.
Definition set_votes m (p : t) : t :=
  {| text_channel := text_channel p; voice := voice p; current := current p;
     songs := songs p; volume := volume p; loop := loop p;
     loop_queue := loop_queue p; _notify := _notify p; _votes := m;
     destroyed := destroyed p |}.
Definition set_text_channel c (p : t) : t :=
  {| text_channel := c; voice := voice p; current := current p;
     songs := songs p; volume := volume p; loop := loop p;
     loop_queue := loop_queue p; _notify := _notify p; _votes := _votes p;
     destroyed := destroyed p |}.
Definition set_destroyed b (p : t) : t :=
  {| text_channel := text_channel p; voice := voice p; current := current p;
     songs := songs p; volume := volume p; loop := loop p;
     loop_queue := loop_queue p; _notify := _notify p; _votes := _votes p;
     destroyed := b |}.

(** The states of the specification's player state machine, read off the
    record. *)
Inductive state := Idle | ConnectedIdle | Playing | Paused | Destroyed.

Definition state_of (p : t) : state :=
  if destroyed p then Destroyed
  else match voice p with
       | None => Idle
       | Some v =>
           match VoiceClient.status v with
           | SinkIdle => ConnectedIdle
           | SinkPlaying => Playing
           | SinkPaused => Paused
           end
       end.

(** Modelled from the spec: [Player.pause] lives in [cogs/utils/music_player],
    which is not among the sources.  Section 4.3: "pause: Playing -> Paused";
    no other state has a pause transition. *)
Definition pause (p : t) : t :=
  match state_of p, voice p with
  | Playing, Some v => set_voice (Some (VoiceClient.set_status SinkPaused v)) p
  | _, _ => p
  end.

(** Modelled from the spec: [Player.resume] (same missing module).
    Section 4.3: "resume: Paused -> Playing". *)
Definition resume (p : t) : t :=
  match state_of p, voice p with
  | Paused, Some v => set_voice (Some (VoiceClient.set_status SinkPlaying v)) p
  | _, _ => p
  end.

(** Modelled from the spec: [Player.stop] (same missing module), the
    teardown used by [leave] and by the inactivity timeout.  Section 4.3:
    "leave / timeout-destroy: cancel background driver, release MediaSink
    connection ... -> Destroyed".  Removal from the registry is done by the
    caller ([del self.players[...]]). *)
Definition stop (p : t) : t := set_destroyed true (set_voice None p).

(** Modelled from the spec: [Player.skip] (same missing module).
    Section 4.3: "skip: force-stop current Song"; the completion handling
    that follows belongs to the background driver, not to the caller. *)
Definition skip (p : t) : t :=
  match voice p with
  | Some v => set_voice (Some (VoiceClient.set_status SinkIdle v)) p
  | None => p
  end.
End Player.

(** ** The handler monad *)

(** What a handler emits, in order. *)
Inductive event :=
| Send (channel : Z) (text : string)       (* [ctx.send], [text_channel.send] *)
| SendEmbed (channel : Z) (title : string)
| AddReaction (emoji : string)
| Typing
| Print (text : string)
| HttpPost (url body : string)             (* [bot.session.post] *)
| PlayerPause | PlayerResume | PlayerStop | PlayerSkip
| VoiceStop
| VoiceConnect (channel : Z)
| VoiceMove (channel : Z)
| SelfDeafen (channel : Z)                 (* [guild.change_voice_state] *)
| HttpGet (url : string)
| QueueShuffle.

Definition M (S A : Type) : Type := S -> result A * S * list event.

Definition ret {S A} (a : A) : M S A := fun s => (Ok a, s, []).
Definition raise {S A} (e : exn) : M S A := fun s => (Raise e, s, []).
Definition bind {S A B} (m : M S A) (k : A -> M S B) : M S B :=
  fun s =>
    match m s with
    | (Ok a, s', out) =>
        match k a s' with
        | (r, s'', out') => (r, s'', (out ++ out')%list)
        end
    | (Raise e, s', out) => (Raise e, s', out)
    end.
Definition get {S} : M S S := fun s => (Ok s, s, []).
Definition put {S} (s : S) : M S unit := fun _ => (Ok tt, s, []).
Definition emit {S} (e : event) : M S unit := fun s => (Ok tt, s, [e]).

Declare Scope py_scope.
Delimit Scope py_scope with py.
Notation "x <- m ;; k" := (bind m (fun x => k))
  (at level 100, m at next level, right associativity) : py_scope.
Notation "m ;; k" := (bind m (fun _ => k))
  (at level 100, right associativity) : py_scope.
Local Open Scope py_scope.

(** [o.attr] where [o] may be [None]. *)
Definition attr {S A} (o : option A) : M S A :=
  match o with
  | Some a => ret a
  | None => raise AttributeError
  end.

(** Projections of a run. *)
Definition outcome {S A} (r : result A * S * list event) : result A := r.1.1.
Definition final {S A} (r : result A * S * list event) : S := r.1.2.
Definition trace {S A} (r : result A * S * list event) : list event := r.2.

(** [try: body / except ...: handler / else: orelse].  [handler e] is [None]
    when no [except] clause matches [e]; exceptions of the [else] part are not
    caught. *)
Definition try_except {S A B} (body : M S A) (handler : exn -> option (M S B))
    (orelse : A -> M S B) : M S B :=
  fun s =>
    match body s with
    | (Ok a, s', out) =>
        match orelse a s' with
        | (r, s'', out') => (r, s'', (out ++ out')%list)
        end
    | (Raise e, s', out) =>
        match handler e with
        | Some h =>
            match h s' with
            | (r, s'', out') => (r, s'', (out ++ out')%list)
            end
        | None => (Raise e, s', out)
        end
    end.

(** ** Command context *)

Module Ctx.
(** The parts of [commands.Context] the cog reads.  [ctx.player] is the
    state of the handler monad below. *)
Record t := {
  author : Member.t;          (* [ctx.author], [ctx.message.author] *)
  guild_roles : list Role.t;  (* [ctx.guild.roles] *)
  author_voice : option Channel.t;   (* [ctx.author.voice.channel] *)
  guild_id : Z;
  channel : Z                 (* [ctx.channel] *)
}.
End Ctx.

(** A command handler runs on [ctx.player], which is [None] when the guild has
    no player. *)
Abbreviation MC := (M (option Player.t)).

Definition send (ctx : Ctx.t) (text : string) : MC unit :=
  emit (Send (Ctx.channel ctx) text).

(** [ctx.player.<field>]: fails when [ctx.player] is [None]. *)
Definition the_player : MC Player.t := s <- get ;; attr s.

Definition update (f : Player.t -> Player.t) : MC unit :=
  p <- the_player ;; put (Some (f p)).

(** [d[k]] on the vote dictionary. *)
Definition getitem {S} (d : gmap string (gset Z)) (k : string) : M S (gset Z) :=
  match d !! k with
  | Some v => ret v
  | None => raise KeyError
  end.

(** A local variable that may not have been assigned. *)
Definition local {S A} (o : option A) : M S A :=
  match o with
  | Some a => ret a
  | None => raise UnboundLocalError
  end.

(** ** [is_dj] *)

Definition dev : Z := 224513210471022592.

(** The predicate wrapped by [is_dj()]. *)
Definition is_dj (ctx : Ctx.t) : bool :=
  let author := Ctx.author ctx in
  let upper := utils_get (Ctx.guild_roles ctx) "DJ" in
  let lower := utils_get (Ctx.guild_roles ctx) "dj" in
  Member.manage_guild author
  || role_in upper (Member.roles author)
  || role_in lower (Member.roles author)
  || (Member.id author =? dev).

(** ** The vote gate *)

(** The coroutine handed to [votes]: it takes no argument ([skip_song],
    [shuffle_queue]) or one ([remove_song]). *)
Inductive callable :=
| Nullary (f : MC unit)
| Unary (f : Z -> MC unit).

Definition call0 (func : callable) : MC unit :=
  match func with
  | Nullary f => f
  | Unary _ => raise TypeError
  end.

Definition call1 (func : callable) (a : Z) : MC unit :=
  match func with
  | Unary f => f a
  | Nullary _ => raise TypeError
  end.

(** [run_func] inside [votes]: [if param:] is false for [None] and for [0]. *)
Definition run_func (func : callable) (param : option Z) : MC unit :=
  match param with
  | Some v => if v =? 0 then call0 func else call1 func v
  | None => call0 func
  end.

(** The nested [if] of [votes] on the member count: [(is_only_user,
    required_votes)]; [required_votes] stays unassigned in the first branch. *)
Definition vote_threshold (n : Z) : bool * option Z :=
  if n <? 5 then
    if n <? 3 then (true, None)
    else (false, Some (n - 1))
  else (false, Some 3).

Definition votes (ctx : Ctx.t) (cmd : string) (func : callable)
    (param : option Z) : MC unit :=
  let voter := Ctx.author ctx in
  p <- the_player ;;
  cur <- attr (Player.current p) ;;
  let if_is_requester := Member.eqb voter (Song.requester cur) in
  let if_has_perms := Member.manage_guild voter in
  let upper := utils_get (Ctx.guild_roles ctx) "DJ" in
  let lower := utils_get (Ctx.guild_roles ctx) "dj" in
  let if_is_dj :=
    role_in upper (Member.roles voter) || role_in lower (Member.roles voter) in
  vc <- attr (Player.voice p) ;;
  let n := len (Channel.members (VoiceClient.channel vc)) in
  let '(is_only_user, required_votes) := vote_threshold n in
  if if_is_requester || if_has_perms || is_only_user || if_is_dj then
    run_func func param
  else
    vs <- getitem (Player._votes p) cmd ;;
    if negb (bool_decide (Member.id voter ∈ vs)) then
      let vs' := vs ∪ {[ Member.id voter ]} in
      put (Some (Player.set_votes (<[cmd := vs']> (Player._votes p)) p)) ;;
      let total_votes := Z.of_nat (size vs') in
      required <- local required_votes ;;
      if total_votes >=? required then
        put (Some (Player.set_votes (<[cmd := ∅]> (Player._votes p)) p)) ;;
        run_func func param
      else
        send ctx (capitalize cmd +:+ " vote added, currently at `"
                  +:+ str total_votes +:+ "/" +:+ str required +:+ "`")
    else
      send ctx ("You have already voted to " +:+ cmd +:+ ".").

(** ** Commands *)

(** A command as [discord.ext.commands] sees it: the predicates attached by
    decorators such as [@is_dj()] and the coroutine itself. *)
Record command (A : Type) := {
  checks : list (Ctx.t -> bool);
  callback : Ctx.t -> A -> MC unit
}.
Arguments checks {A} c.
Arguments callback {A} c.

(** Invocation by the framework: every check must pass, otherwise
    [CheckFailure] is raised and the coroutine does not run. *)
Definition invoke {A} (c : command A) (ctx : Ctx.t) (a : A) : MC unit :=
  if forallb (fun chk => chk ctx) (checks c) then callback c ctx a
  else raise CheckFailure.

(** [a / b] on integers. *)
Definition truediv (a b : Z) : Q := (inject_Z a / inject_Z b)%Q.

(** [get_volume_emoji]; the argument is an [int] or a [float]. *)
Definition get_volume_emoji (volume : Q) : string :=
  if Qle_bool 50 volume then ":loud_sound:" else ":sound:".

Definition nl : string := String (ascii_of_nat 10) EmptyString.

Section Commands.

(** [Player.is_playing] is a property defined in [music_player]; the cog
    only reads it. *)
Variable is_playing : Player.t -> bool.

(** The order [random.shuffle] leaves the queue in. *)
Variable shuffled : list Song.t -> list Song.t.

(** How Python prints a [float] inside an f-string, and [str(song)]. *)
Variable str_float : Q -> string.
Variable str_song : Song.t -> string.

Definition no_player (ctx : Ctx.t) : MC unit :=
  send ctx "This server doesn't have a player.".

Definition skip : command unit := {|
  checks := [];
  callback ctx _ :=
    s <- get ;;
    match s with
    | None => no_player ctx
    | Some p =>
        let skip_song : MC unit :=
          emit (AddReaction "⏭") ;;
          emit PlayerSkip ;; update Player.skip in
        if negb (is_playing p) then
          send ctx "Nothing is playing. There is nothing to skip!"
        else votes ctx "skip" (Nullary skip_song) None
    end
|}.

Definition shuffle : command unit := {|
  checks := [];
  callback ctx _ :=
    s <- get ;;
    match s with
    | None => no_player ctx
    | Some p =>
        let shuffle_queue : MC unit :=
          emit QueueShuffle ;;
          update (fun p => Player.set_songs (shuffled (Player.songs p)) p) ;;
          send ctx "**🔀 Shuffled songs**" in
        if len (Player.songs p) =? 0 then
          send ctx "Queue is empty. Nothing to shuffle!"
        else votes ctx "shuffle" (Nullary shuffle_queue) None
    end
|}.

(** Modelled from the spec: [SongQueue.__getitem__] and [SongQueue.remove]
    live in [music_player].  Section 4.1: "removeAt(pos) removes the element
    at 1-based position pos; fails with IndexOutOfRange if pos outside
    [1, length]"; "peekAt(pos) ... has the same range contract".  The cog
    passes [index - 1]. *)
Definition queue_at (q : list Song.t) (i : Z) : MC Song.t :=
  if (0 <=? i) && (i <? len q) then
    match q !! Z.to_nat i with
    | Some s => ret s
    | None => raise IndexError
    end
  else raise IndexError.

Definition queue_remove : command Z := {|
  checks := [];
  callback ctx index :=
    s <- get ;;
    match s with
    | None => no_player ctx
    | Some p =>
        let remove_song (index : Z) : MC unit :=
          p <- the_player ;;
          song <- queue_at (Player.songs p) (index - 1) ;;
          let to_be_removed := Song.title song in
          put (Some (Player.set_songs
                       (delete (Z.to_nat (index - 1)) (Player.songs p)) p)) ;;
          send ctx ("**🗑 Removed** `" +:+ to_be_removed +:+ "`") in
        if len (Player.songs p) =? 0 then
          send ctx "Queue is empty. Nothing to remove!"
        else votes ctx "remove" (Unary remove_song) (Some index)
    end
|}.

Definition volume : command (option Z) := {|
  checks := [];
  callback ctx volume :=
    s <- get ;;
    match s with
    | None => no_player ctx
    | Some p =>
        match (match volume with Some 0 => None | v => v end) with
        | None =>
            let volume := (Player.volume p * 100)%Q in
            let emoji := get_volume_emoji volume in
            send ctx ("**" +:+ emoji +:+ " Volume:** `"
                      +:+ str_float volume +:+ "%`")
        | Some volume =>
            if negb (is_playing p) then
              send ctx "Nothing is being played at the moment."
            else if (0 >? volume) && (volume >? 100) then
              send ctx "Volume must be between 0 and 100"
            else
              update (Player.set_volume (truediv volume 100)) ;;
              p <- the_player ;;
              vc <- attr (Player.voice p) ;;
              put (Some (Player.set_voice
                (Some (VoiceClient.set_volume (truediv volume 100) vc)) p)) ;;
              p <- the_player ;;
              cur <- attr (Player.current p) ;;
              put (Some (Player.set_current
                (Some (Song.set_source_volume (truediv volume 100) cur)) p)) ;;
              send ctx ("**" +:+ get_volume_emoji (inject_Z volume)
                        +:+ " Volume:** `" +:+ str volume +:+ "%`")
        end
    end
|}.

Definition pause : command unit := {|
  checks := [is_dj];
  callback ctx _ :=
    s <- get ;;
    match s with
    | None => no_player ctx
    | Some p =>
        if is_playing p then
          vc <- attr (Player.voice p) ;;
          if VoiceClient.is_playing vc then
            emit PlayerPause ;; update Player.pause ;;
            p <- the_player ;;
            cur <- attr (Player.current p) ;;
            send ctx ("**:pause_button: Paused** `" +:+ Song.title cur +:+ "`")
          else ret tt
        else ret tt
    end
|}.

Definition resume : command unit := {|
  checks := [is_dj];
  callback ctx _ :=
    s <- get ;;
    match s with
    | None => no_player ctx
    | Some p =>
        if is_playing p then
          vc <- attr (Player.voice p) ;;
          if VoiceClient.is_paused vc then
            emit PlayerResume ;; update Player.resume ;;
            p <- the_player ;;
            cur <- attr (Player.current p) ;;
            send ctx ("**:arrow_forward: Resuming** `"
                      +:+ Song.title cur +:+ "`")
          else ret tt
        else ret tt
    end
|}.

Definition stop : command unit := {|
  checks := [is_dj];
  callback ctx _ :=
    s <- get ;;
    match s with
    | None => no_player ctx
    | Some p =>
        (if is_playing p then
           vc <- attr (Player.voice p) ;;
           emit VoiceStop ;;
           put (Some (Player.set_voice
                        (Some (VoiceClient.set_status SinkIdle vc)) p))
         else ret tt) ;;
        update (Player.set_songs []) ;;
        update (Player.set_loop false) ;;
        update (Player.set_loop_queue false) ;;
        send ctx "**⏹ Song stopped and queue cleared.**"
    end
|}.

Definition loop : command unit := {|
  checks := [];
  callback ctx _ :=
    s <- get ;;
    match s with
    | None => no_player ctx
    | Some p =>
        if negb (is_playing p) && negb (Player.loop p) then
          send ctx "Nothing is being played at the moment."
        else
          update (Player.set_loop (negb (Player.loop p))) ;;
          update (Player.set_loop_queue false) ;;
          p <- the_player ;;
          if Player.loop p then
            cur <- attr (Player.current p) ;;
            send ctx ("**:repeat_one: Now looping** `"
                      +:+ Song.title cur +:+ "`")
          else
            cur <- attr (Player.current p) ;;
            send ctx ("**:repeat_one: :x: No longer looping** `"
                      +:+ Song.title cur +:+ "`")
    end
|}.

Definition loop_queue : command unit := {|
  checks := [];
  callback ctx _ :=
    s <- get ;;
    match s with
    | None => no_player ctx
    | Some p =>
        if negb (is_playing p) && negb (Player.loop_queue p) then
          send ctx "Nothing being played at the moment."
        else if (len (Player.songs p) =? 0) && negb (Player.loop_queue p) then
          send ctx "The queue is empty. Nothing to loop!"
        else
          update (Player.set_loop_queue (negb (Player.loop_queue p))) ;;
          update (Player.set_loop false) ;;
          p <- the_player ;;
          if Player.loop_queue p then send ctx "**:repeat: Now looping queue**"
          else send ctx "**:repeat: :x: No longer looping queue**"
    end
|}.

End Commands.

(** ** The registry and the inactivity listener *)

Module Bot.
(** [self.players] maps a guild id to a [Player] object.  The listener keeps
    using the object after it has removed it from the dictionary, so objects
    live in a store of their own and the dictionary holds references. *)
Record t := {
  objects : gmap N Player.t;
  players : gmap Z N
}.
Definition set_objects o (b : t) : t := {| objects := o; players := players b |}.
Definition set_players r (b : t) : t := {| objects := objects b; players := r |}.

(** [self.players.get(guild)] followed by reading the object. *)
Definition player_of (b : t) (guild : Z) : option Player.t :=
  r ← players b !! guild; objects b !! r.
End Bot.

Abbreviation MB := (M Bot.t).

Definition deref (r : N) : MB Player.t :=
  b <- get ;; attr (Bot.objects b !! r).

Definition modify (r : N) (f : Player.t -> Player.t) : MB unit :=
  p <- deref r ;;
  b <- get ;; put (Bot.set_objects (<[r := f p]> (Bot.objects b)) b).

(** [del self.players[guild]] *)
Definition del_player (guild : Z) : MB unit :=
  b <- get ;;
  match Bot.players b !! guild with
  | Some _ => put (Bot.set_players (delete guild (Bot.players b)) b)
  | None => raise KeyError
  end.

(** A later [voice_state_update] dispatch: how many seconds after the wait
    began it arrives, and its arguments ([before.channel], [after.channel]). *)
Record voice_update := {
  at_second : Z;
  who : Member.t;
  before_channel : option Channel.t;
  after_channel : option Channel.t
}.

(** [bot.wait_for("voice_state_update", timeout=..., check=...)]: the first
    dispatch that passes the check and arrives no later than the deadline,
    else [asyncio.TimeoutError].  A dispatch arriving together with the
    deadline still wins: [asyncio.wait_for] returns the result of a future
    that completed in the loop pass of its timer. *)
Definition wait_for (timeout : Z)
    (check : Member.t -> option Channel.t -> option Channel.t -> bool)
    (updates : list voice_update) : result voice_update :=
  match find (fun u => (at_second u <=? timeout)
                       && check (who u) (before_channel u) (after_channel u))
             updates with
  | Some u => Ok u
  | None => Raise TimeoutError
  end.

(** [[m for m in members if not m.bot]] *)
Definition non_bots (ms : list Member.t) : list Member.t :=
  List.filter (fun m => negb (Member.bot m)) ms.

(** The [check] closure of [on_voice_leave]; [channel] is
    [player.voice.channel], which the closure captures. *)
Definition check (channel : Channel.t) (mem : Member.t)
    (bf af : option Channel.t) : bool :=
  negb (Member.bot mem)
  && match af with
     | Some c => Channel.eqb c channel
     | None => false
     end.

Section Listener.

(** The paste service: the ["key"] of the JSON answer to a post of the
    given text, or the exception the request ends in. *)
Variable paste_key : string -> result string.

(** [Music.post] with its default [url]. *)
Definition post {S} (content : string) : M S (option string) :=
  let url := "https://mystb.in" in
  emit (HttpPost (url +:+ "/documents") content) ;;
  match paste_key content with
  | Ok key => ret (Some (url +:+ "/" +:+ key))
  | Raise e => raise e
  end.

Definition on_voice_leave (guild : Z) (member : Member.t)
    (before after : option Channel.t) (updates : list voice_update)
    : MB unit :=
  if Member.bot member then ret tt
  else
    b <- get ;;
    match Bot.players b !! guild with
    | None => ret tt
    | Some r =>
        player <- deref r ;;
        match Player.voice player with
        | None => ret tt
        | Some vc =>
            let members := non_bots (Channel.members (VoiceClient.channel vc)) in
            let check := check (VoiceClient.channel vc) in
            if len members >? 0 then ret tt
            else
              let resume := emit PlayerResume ;; modify r Player.resume in
              emit PlayerPause ;; modify r Player.pause ;;
              match wait_for 120 check updates with
              | Ok _ => resume
              | Raise TimeoutError =>
                  player <- deref r ;;
                  songs <- (if len (Player.songs player) >? 0 then
                              let songs := map Song.url (Player.songs player) in
                              cur <- attr (Player.current player) ;;
                              ret (Some (Song.url cur :: songs))
                            else ret None) ;;
                  emit PlayerStop ;; modify r Player.stop ;;
                  del_player guild ;;
                  match songs with
                  | Some ((_ :: _) as songs) =>
                      url <- post (join nl songs) ;;
                      match url with
                      | None =>
                          emit (Send (Player.text_channel player)
                                     "Sorry, I couldn't save your queue.")
                      | Some url =>
                          emit (Send (Player.text_channel player)
                            ("**I saved your queue!**" +:+ nl +:+
                             "To resume where you left off, use this link with the `playbin` command: **"
                             +:+ url +:+ "**")) ;;
                          resume
                      end
                  | _ => resume
                  end
              | Raise e => raise e
              end
        end
    end.

End Listener.

(** ** Resolving and enqueueing songs *)

Inductive LocationType := youtube | soundcloud | db | bin.

(** An awaited call into a collaborator: how many seconds it takes and how it
    ends. *)
Record reply (A : Type) := { elapsed : Z; answer : result A }.
Arguments elapsed {A} r.
Arguments answer {A} r.

(** A plain [await]. *)
Definition await {S A} (r : reply A) : M S A :=
  match answer r with
  | Ok a => ret a
  | Raise e => raise e
  end.

(** [async with timeout(limit): await ...]: the call is cancelled and
    [asyncio.TimeoutError] raised once [limit] seconds have passed. *)
Definition timeout {S A} (limit : Z) (r : reply A) : M S A :=
  if elapsed r <? limit then await r else raise TimeoutError.

Definition startswith (s pre : string) : bool := String.prefix pre s.

Definition endswith (s suf : string) : bool :=
  String.prefix (string_of_list_ascii (rev (list_ascii_of_string suf)))
                (string_of_list_ascii (rev (list_ascii_of_string s))).

Fixpoint drop_while {A} (f : A -> bool) (l : list A) : list A :=
  match l with
  | [] => []
  | x :: l' => if f x then drop_while f l' else l
  end.

(** [s.strip(chars)] *)
Definition strip (s chars : string) : string :=
  let drop c := existsb (Ascii.eqb c) (list_ascii_of_string chars) in
  string_of_list_ascii
    (rev (drop_while drop (rev (drop_while drop (list_ascii_of_string s))))).

(** [sub in s] *)
Definition contains (s sub : string) : bool :=
  match String.index 0 sub s with
  | Some _ => true
  | None => false
  end.

Definition dquote : string := String (ascii_of_nat 34) EmptyString.

(** The body a bin answers with when the document does not exist. *)
Definition document_not_found : string :=
  "{" +:+ dquote +:+ "message" +:+ dquote +:+ ":" +:+ dquote
  +:+ "Document not found." +:+ dquote +:+ "}".

Section Resolution.

Variable is_playing : Player.t -> bool.
Variable str_song : Song.t -> string.

(** [music_player.Player(bot, ctx)] and the printed name of a channel. *)
Variable new_player : Ctx.t -> Player.t.
Variable channel_name : Z -> string.

(** [destination.connect()] *)
Variable connect : Channel.t -> result VoiceClient.t.

(** The resolver ([ytdl.Song], not among the sources): a song, [None], or
    [YTDLError]; for a playlist, the songs and the number that failed. *)
Variable get_song : string -> reply (option Song.t).
Variable get_song_from_db : string -> reply (option Song.t).
Variable get_playlist : string -> reply (list (option Song.t) * Z).

(** [URLS.match], [YT_URLS.match], [YT_URLS.findall], [str.splitlines],
    [urlparse] (scheme, netloc, path), the HTTP GET of a bin (status and
    body) and the user's answer to [ctx.confirm]. *)
Variable URLS_match : string -> bool.
Variable YT_URLS_match : string -> bool.
Variable YT_URLS_findall : string -> list string.
Variable splitlines : string -> list string.
Variable urlparse : string -> string * string * string.
Variable http_get : string -> reply (Z * string).
Variable confirm : string -> bool.

(** [songs.put(song)]: append at the tail. *)
Definition songs_put (song : Song.t) : MC unit :=
  update (fun p => Player.set_songs (Player.songs p ++ [song])%list p).

Definition create_player (ctx : Ctx.t) : MC unit := put (Some (new_player ctx)).

(** The [join] command.  The framework runs it behind its [before_invoke]
    hook ([ensure_player], with [invoke_hooked]); [ctx.invoke(self.join)] in
    [play_song] and [playbin] calls the coroutine below without the hook. *)
Definition join : command unit := {|
  checks := [];
  callback ctx _ :=
    s <- get ;;
    (match s with
     | None => create_player ctx
     | Some _ => ret tt
     end) ;;
    destination <- attr (Ctx.author_voice ctx) ;;
    update (Player.set_text_channel (Ctx.channel ctx)) ;;
    p <- the_player ;;
    (match Player.voice p with
     | Some vc =>
         emit (VoiceMove (Channel.id destination)) ;;
         put (Some (Player.set_voice
                      (Some (VoiceClient.move_to destination vc)) p))
     | None =>
         emit (VoiceConnect (Channel.id destination)) ;;
         match connect destination with
         | Ok vc =>
             put (Some (Player.set_voice (Some vc) p)) ;;
             emit (SelfDeafen (Channel.id destination))
         | Raise e => raise e
         end
     end) ;;
    send ctx ("**Connected to ** <:voice_channel:665577300552843294>`"
              +:+ channel_name (Channel.id destination)
              +:+ "` and **bound to** <:text_channel:661798072384225307>`"
              +:+ channel_name (Ctx.channel ctx) +:+ "`")
|}.

(** The embed listing what was enqueued; its description (titles, total
    duration, number of failures) is not modelled. *)
Definition send_enqueued (ctx : Ctx.t) : MC unit :=
  emit (SendEmbed (Ctx.channel ctx) "**📄 Enqueued:**").

(** The loop of [fetch_yt_playlist] over the fetched playlist. *)
Fixpoint enqueue_playlist (playlist : list (option Song.t)) : MC unit :=
  match playlist with
  | [] => ret tt
  | None :: rest => enqueue_playlist rest
  | Some song :: rest => songs_put song ;; enqueue_playlist rest
  end.

Definition ytdl_error_text (e : string) : string :=
  "An error occurred while processing this request: ```py " +:+ e +:+ "```".

Definition fetch_yt_playlist (ctx : Ctx.t) (url : string) : MC unit :=
  send ctx ("**<:youtube:667536366447493120> Fetching YouTube playlist** `"
            +:+ url +:+ "`" +:+ nl
            +:+ "This make take awhile depending on playlist size.") ;;
  try_except (await (get_playlist url))
    (fun e =>
       match e with
       | YTDLError e =>
           Some (emit (Print e) ;;
                 send ctx ("An error occurred while processing this request: ```py"
                           +:+ nl +:+ e +:+ nl +:+ "```"))
       | _ => None
       end)
    (fun '(playlist, failed_songs) =>
       enqueue_playlist playlist ;;
       send_enqueued ctx).

(** [get_haste] *)
Definition get_haste (url : string) : MC string :=
  let '(scheme, netloc, path) := urlparse url in
  let newpath := "/raw" +:+ path in
  let url := scheme +:+ "://" +:+ netloc +:+ newpath in
  emit (HttpGet url) ;;
  let r := http_get url in
  if elapsed r <? 10 then
    match answer r with
    | Ok (status, body) =>
        if negb (status =? 200) then raise (BinFetchingError status)
        else ret body
    | Raise e => raise e
    end
  else raise TimeoutError.

(** The loop of [hastebin_playlist] over the lines of the bin. *)
Fixpoint fetch_videos (ctx : Ctx.t) (videos : list string) : MC unit :=
  match videos with
  | [] => ret tt
  | video :: rest =>
      try_except (await (get_song video))
        (fun e =>
           match e with
           | YTDLError e => Some (send ctx (ytdl_error_text e))
           | _ => None
           end)
        (fun song =>
           match song with
           | Some song => songs_put song
           | None => ret tt
           end) ;;
      fetch_videos ctx rest
  end.

Definition hastebin_playlist (ctx : Ctx.t) (search : string) : MC unit :=
  output <- get_haste search ;;
  if String.eqb output "" || String.eqb output document_not_found then
    send ctx "Bin returned an error: `Document not found.`"
  else if String.eqb output "404: Not Found" then
    send ctx "Site returned an error: `404: Not Found`"
  else
    (if len (YT_URLS_findall output) =? 0 then
       send ctx (":warning: There are no YouTube URLs in this bin. "
                 +:+ "Are you sure this is the correct site?" +:+ nl
                 +:+ "**Continuing download...**")
     else ret tt) ;;
    let videos := splitlines output in
    if (len videos >? 50)
       && negb (confirm "I found more than 50 lines in this hastebin. Continue?")
    then send ctx "Cancelled."
    else
      fetch_videos ctx videos ;;
      send_enqueued ctx.

Definition playbin : command string := {|
  checks := [];
  callback ctx url :=
    s <- get ;;
    (match s with
     | None => create_player ctx
     | Some _ => ret tt
     end) ;;
    p <- the_player ;;
    (match Player.voice p with
     | None => callback join ctx tt
     | Some _ => ret tt
     end) ;;
    if negb (URLS_match url) then raise BadArgument
    else
      send ctx ("**:globe_with_meridians: Fetching from bin** `" +:+ url
                +:+ "`" +:+ nl
                +:+ "This make take awhile depending on amount of songs.") ;;
      hastebin_playlist ctx url
|}.

Definition play_song (ctx : Ctx.t) (location_type : option LocationType)
    (query : string) : MC unit :=
  p <- the_player ;;
  (match Player.voice p with
   | None => callback join ctx tt
   | Some _ => ret tt
   end) ;;
  (* [location_type is location_type.bin] reads an attribute of the argument *)
  lt <- attr location_type ;;
  match lt with
  | bin =>
      (* [ctx.invoke(self.playbin, query)] passes [query] positionally, but
         [url] is a keyword-only parameter of [playbin] *)
      raise TypeError
  | _ =>
      let query :=
        if startswith query "<" && endswith query ">" then strip query "<>"
        else query in
      if URLS_match query && YT_URLS_match query && contains query "list=" then
        fetch_yt_playlist ctx query
      else
        send ctx ("**:mag: Searching** `" +:+ query +:+ "`") ;;
        emit Typing ;;
        try_except
          (timeout 180
             (match lt with
              | db => get_song_from_db query
              | _ => get_song query
              end))
          (fun e =>
             match e with
             | YTDLError e =>
                 Some (emit (Print e) ;; send ctx (ytdl_error_text e))
             | TimeoutError =>
                 Some (send ctx "Timed out while fetching song. Sorry.")
             | _ => None
             end)
          (fun song =>
             match song with
             | None => send ctx "Sorry. I couldn't fetch that song."
             | Some song =>
                 songs_put song ;;
                 p <- the_player ;;
                 if is_playing p then
                   send ctx ("**📄 Enqueued** " +:+ str_song song)
                 else if negb (Player._notify p) then
                   send ctx ("**🎶 Now playing** `" +:+ Song.title song +:+ "`")
                 else ret tt
             end)
  end.

End Resolution.


(** ** Further commands of the cog *)

(** [await songs.get()]: the head of the queue leaves it.  On an empty queue
    the await never completes; [None] stands for that. *)
Definition songs_get : MC (option Song.t) :=
  p <- the_player ;;
  match Player.songs p with
  | [] => ret None
  | song :: rest => put (Some (Player.set_songs rest p)) ;; ret (Some song)
  end.

(** The loop of [skipto], [for i in range(n)]: the result says whether every
    [songs.get()] completed. *)
Fixpoint skip_ahead (n : nat) : MC bool :=
  match n with
  | O => ret true
  | S n' =>
      current <- songs_get ;;
      match current with
      | None => ret false
      | Some current =>
          p <- the_player ;;
          (if Player.loop_queue p then
             update (fun p => Player.set_songs (Player.songs p ++ [current])%list p)
           else ret tt) ;;
          skip_ahead n'
      end
  end.

(** The queue [skipto] leaves after [k] rounds of its loop: the first [k]
    songs are dropped, or moved to the tail when the queue is looped. *)
Definition skipped (k : nat) (p : Player.t) : list Song.t :=
  if Player.loop_queue p
  then (drop k (Player.songs p) ++ take k (Player.songs p))%list
  else drop k (Player.songs p).

Definition skipto : command Z := {|
  checks := [is_dj];
  callback ctx position :=
    s <- get ;;
    match s with
    | None => send ctx "This server doesn't have a player."
    | Some p =>
        if len (Player.songs p) <? position then
          send ctx ("The queue has less than " +:+ str position +:+ " song(s).")
        else
          completed <- skip_ahead (Z.to_nat (position - 1)) ;;
          if completed then
            emit PlayerSkip ;; update Player.skip ;;
            send ctx ("Skipped to song at position `" +:+ str position +:+ "`")
          else ret tt
    end
|}.

(** Modelled from the spec: the [notify] property of the player lives in
    [music_player]; section 3 lists a "notify flag" among the player's fields,
    the one [play_song] reads as [_notify]. *)
Definition notify : command unit := {|
  checks := [];
  callback ctx _ :=
    s <- get ;;
    match s with
    | None => send ctx "This server doesn't have a player."
    | Some p =>
        put (Some
          {| Player.text_channel := Player.text_channel p;
             Player.voice := Player.voice p;
             Player.current := Player.current p;
             Player.songs := Player.songs p;
             Player.volume := Player.volume p;
             Player.loop := Player.loop p;
             Player.loop_queue := Player.loop_queue p;
             Player._notify := negb (Player._notify p);
             Player._votes := Player._votes p;
             Player.destroyed := Player.destroyed p |}) ;;
        p <- the_player ;;
        if Player._notify p then
          send ctx "**:bell: Now playing notifications enabled**"
        else send ctx "**:no_bell: Now playing notifications disabled**"
    end
|}.

(** [queue clear] *)
Definition queue_lear : command unit := {|
  checks := [];
  callback ctx _ :=
    s <- get ;;
    match s with
    | None => send ctx "This server doesn't have a player."
    | Some p =>
        update (Player.set_songs []) ;;
        send ctx "**🗑 Cleared queue**"
    end
|}.

Section SaveQueue.

Variable paste_key : string -> result string.

(** [queue save]; its cooldown is a matter of the framework's clock and is
    not part of the coroutine. *)
Definition _save_queue : command unit := {|
  checks := [];
  callback ctx _ :=
    s <- get ;;
    match s with
    | None => send ctx "This server doesn't have a player."
    | Some p =>
        if len (Player.songs p) =? 0 then
          send ctx "Queue is empty! Nothing to save."
        else
          let songs := map Song.url (Player.songs p) in
          cur <- attr (Player.current p) ;;
          let songs := Song.url cur :: songs in
          url <- post paste_key (Py.join nl songs) ;;
          match url with
          | None => send ctx "Sorry, I couldn't save your queue."
          | Some url => send ctx ("**Current queue: " +:+ url +:+ "**")
          end
    end
|}.

End SaveQueue.

Section Leave.

(** [ctx.tick(ok, text)], a helper of the bot's context class. *)
Variable tick : bool -> string -> string.

(** [leave], on the bot's registry: [ctx.player] is the object registered for
    [ctx.guild.id]; [voice_client] is [ctx.voice_client]. *)
Definition leave (ctx : Ctx.t) (voice_client : option VoiceClient.t) : MB unit :=
  if negb (is_dj ctx) then raise CheckFailure
  else
    b <- get ;;
    match Bot.players b !! Ctx.guild_id ctx with
    | None => emit (Send (Ctx.channel ctx) "This server doesn't have a player.")
    | Some r =>
        player <- deref r ;;
        let disconnect : MB unit :=
          emit PlayerStop ;; modify r Player.stop ;;
          del_player (Ctx.guild_id ctx) ;;
          emit (Send (Ctx.channel ctx)
                  (tick true "Disconnected and cleared queue.")) in
        match Player.voice player with
        | Some _ => disconnect
        | None =>
            match voice_client with
            | Some vc =>
                modify r (Player.set_voice (Some vc)) ;; disconnect
            | None =>
                emit (Send (Ctx.channel ctx)
                        "Not connected to any voice channel.")
            end
        end
    end.

End Leave.

Section Play.

Variable is_playing : Player.t -> bool.
Variable str_song : Song.t -> string.
Variable new_player : Ctx.t -> Player.t.
Variable channel_name : Z -> string.
Variable connect : Channel.t -> result VoiceClient.t.
Variable get_song : string -> reply (option Song.t).
Variable get_song_from_db : string -> reply (option Song.t).
Variable get_playlist : string -> reply (list (option Song.t) * Z).
Variable URLS_match : string -> bool.
Variable YT_URLS_match : string -> bool.

(** [type_regex.match(search).groups()] for the pattern [(\w+):\s?(.+)]. *)
Variable type_regex_match : string -> option (string * string).

(** The [location_types] dictionary of [play], in its order. *)
Definition location_types : list (LocationType * list string) :=
  [(youtube, ["youtube"; "yt"]); (db, ["database"; "db"]); (bin, ["bin"])].

Definition valid_types : list string := flat_map snd location_types.

Definition str_in (s : string) (l : list string) : bool :=
  existsb (String.eqb s) l.

(** The search loop over [location_types.items()]. *)
Definition find_location (their_type : string) : option LocationType :=
  fst <$> find (fun '(_, types) => str_in their_type types) location_types.

(** The [play] command.  The framework runs it behind its [before_invoke]
    hook ([ensure_player], with [invoke_hooked]). *)
Definition play : command (option string) := {|
  checks := [];
  callback ctx search :=
    s <- get ;;
    (match s with
     | None => create_player new_player ctx
     | Some _ => ret tt
     end) ;;
    let no_search :=
      match search with
      | None => true
      | Some text => String.eqb text ""
      end in
    p <- the_player ;;
    paused <- (if no_search && is_playing p then
                 vc <- attr (Player.voice p) ;;
                 ret (VoiceClient.is_paused vc
                      && Member.manage_guild (Ctx.author ctx))
               else ret false) ;;
    if paused then
      emit PlayerResume ;; update Player.resume ;;
      p <- the_player ;;
      cur <- attr (Player.current p) ;;
      send ctx ("**:arrow_forward: Resuming** `" +:+ Song.title cur +:+ "`")
    else
      match search with
      | None => send ctx "Please specify a song to play/search for."
      | Some search =>
          if String.eqb search "" then
            send ctx "Please specify a song to play/search for."
          else
            let '(location_type, query) :=
              match type_regex_match search with
              | None => (None, search)
              | Some (their_type, query) =>
                  let their_type := lower their_type in
                  let location_type :=
                    if str_in their_type valid_types
                    then find_location their_type
                    else None in
                  match location_type with
                  | None => (None, search)
                  | Some _ => (location_type, query)
                  end
              end in
            play_song is_playing str_song new_player channel_name connect
              get_song get_song_from_db get_playlist URLS_match YT_URLS_match
              ctx location_type query
      end
|}.

End Play.

(** ** The [before_invoke] hook of [join] and [play] *)

Section Hook.

(** [ctx.prefix], and [ctx.voice_client]: the voice client of the guild as
    the library tracks it.  The cog keeps its own reference in [player.voice];
    nothing here assumes the two agree. *)
Variable prefix : string.
Variable voice_client : option VoiceClient.t.

(** [ensure_player], attached to both commands by [@join.before_invoke] and
    [@play.before_invoke]. *)
Definition ensure_player (ctx : Ctx.t) : MC unit :=
  match Ctx.author_voice ctx with
  | None => raise (CommandError "You are not connected to a voice channel.")
  | Some channel =>
      match voice_client with
      | Some client =>
          if negb (Channel.eqb (VoiceClient.channel client) channel) then
            let dj := is_dj ctx in
            let hint :=
              if dj
              then " Use `" +:+ prefix +:+ "summon` to summon the bot to a channel."
              else "" in
            raise (CommandError ("Bot is in another voice channel." +:+ hint))
          else ret tt
      | None => ret tt
      end
  end.

End Hook.

(** Invocation by the framework of a command that has a [before_invoke]
    hook: the checks, then the hook, then the coroutine.  [join] and [play]
    are always invoked this way; [ctx.invoke(self.join)] inside [play_song]
    and [playbin] calls the coroutine alone. *)
Definition invoke_hooked {A} (hook : Ctx.t -> MC unit) (c : command A)
    (ctx : Ctx.t) (a : A) : MC unit :=
  if forallb (fun chk => chk ctx) (checks c) then
    hook ctx ;; callback c ctx a
  else raise CheckFailure.


(** The condition [if_is_requester or if_has_perms or is_only_user or
    if_is_dj] of [votes], for the current song [cur] and the voice client
    [vc] of the player. *)
Definition bypass (ctx : Ctx.t) (cur : Song.t) (vc : VoiceClient.t) : bool :=
  Member.eqb (Ctx.author ctx) (Song.requester cur)
  || Member.manage_guild (Ctx.author ctx)
  || (len (Channel.members (VoiceClient.channel vc)) <? 3)
  || (role_in (utils_get (Ctx.guild_roles ctx) "DJ")
              (Member.roles (Ctx.author ctx))
      || role_in (utils_get (Ctx.guild_roles ctx) "dj")
                 (Member.roles (Ctx.author ctx))).

(** The songs a list of bin lines resolves to, in order: lines answered with
    [None] or with a [YTDLError] give nothing. *)
Definition resolved (get_song : string -> reply (option Song.t))
    (videos : list string) : list Song.t :=
  omap (fun video =>
          match answer (get_song video) with
          | Ok song => song
          | Raise _ => None
          end) videos.

(** The error messages the loop sends, one per line that raised
    [YTDLError]. *)
Definition complaints (get_song : string -> reply (option Song.t))
    (ctx : Ctx.t) (videos : list string) : list event :=
  omap (fun video =>
          match answer (get_song video) with
          | Raise (YTDLError e) => Some (Send (Ctx.channel ctx) (ytdl_error_text e))
          | _ => None
          end) videos.


(** ** Concrete guilds used in the examples below *)

Definition human (i : Z) : Member.t :=
  {| Member.id := i; Member.bot := false; Member.manage_guild := false;
     Member.roles := [] |}.

Definition robot (i : Z) : Member.t :=
  {| Member.id := i; Member.bot := true; Member.manage_guild := false;
     Member.roles := [] |}.

Definition moderator (i : Z) : Member.t :=
  {| Member.id := i; Member.bot := false; Member.manage_guild := true;
     Member.roles := [] |}.

Definition song_of (m : Member.t) (title url : string) : Song.t :=
  {| Song.title := title; Song.url := url; Song.requester := m;
     Song.source_volume := 1 # 2 |}.

Definition room (ms : list Member.t) : Channel.t :=
  {| Channel.id := 10; Channel.members := ms |}.

Definition sink (st : sink_status) (ms : list Member.t) : VoiceClient.t :=
  {| VoiceClient.channel := room ms; VoiceClient.status := st;
     VoiceClient.volume := None |}.

(** The ledger of a new player: one empty set per gated command. *)
Definition no_votes : gmap string (gset Z) :=
  <["skip" := ∅]> (<["shuffle" := ∅]> (<["remove" := ∅]> ∅)).

(** A player streaming [cur] to the members [ms], with [queue] waiting. *)
Definition streaming (ms : list Member.t) (cur : Song.t) (queue : list Song.t)
    (ledger : gmap string (gset Z)) : Player.t :=
  {| Player.text_channel := 5; Player.voice := Some (sink SinkPlaying ms);
     Player.current := Some cur; Player.songs := queue;
     Player.volume := 1 # 2; Player.loop := false; Player.loop_queue := false;
     Player._notify := false; Player._votes := ledger;
     Player.destroyed := false |}.

Definition ctx_of (m : Member.t) : Ctx.t :=
  {| Ctx.author := m; Ctx.guild_roles := []; Ctx.author_voice := None;
     Ctx.guild_id := 1; Ctx.channel := 5 |}.

(** A reading of [Player.is_playing] for the examples: connected and holding
    a current song. *)
Definition has_song (p : Player.t) : bool :=
  match Player.voice p, Player.current p with
  | Some _, Some _ => true
  | _, _ => false
  end.

Definition song_a : Song.t := song_of (human 2) "A" "https://youtu.be/a".
Definition song_b : Song.t := song_of (human 2) "B" "https://youtu.be/b".
Definition song_c : Song.t := song_of (human 3) "C" "https://youtu.be/c".

(** The member carrying the hard-coded developer id. *)
Definition developer : Member.t := human dev.

(** The ledger a run ends with. *)
Definition ledger_after {A} (r : result A * option Player.t * list event)
    : option (gmap string (gset Z)) :=
  Player._votes <$> final r.

(** A bot holding one player, for guild 1. *)
Definition bot_with (p : Player.t) : Bot.t :=
  {| Bot.objects := {[ 0%N := p ]}; Bot.players := {[ 1 := 0%N ]} |}.

(** A member arriving in the player's channel [t] seconds into the wait. *)
Definition arrival (t : Z) (m : Member.t) : voice_update :=
  {| at_second := t; who := m; before_channel := None;
     after_channel := Some (room [m; robot 9]) |}.

(** A player whose channel holds nobody but the bot. *)
Definition lonely (queue : list Song.t) : Player.t :=
  streaming [robot 9] song_a queue no_votes.

(** A paste service that answers every post with the key [abc]. *)
Definition paste_ok (content : string) : result string := Ok "abc".

(** A collaborator that answers [a] after [t] seconds. *)
Definition after {A} (t : Z) (a : A) : reply A :=
  {| elapsed := t; answer := Ok a |}.

(** A caller in the player's voice channel. *)
Definition ctx_in_room (m : Member.t) (ms : list Member.t) : Ctx.t :=
  {| Ctx.author := m; Ctx.guild_roles := []; Ctx.author_voice := Some (room ms);
     Ctx.guild_id := 1; Ctx.channel := 5 |}.

(** ** Properties of the monad *)

Lemma bind_ret_l {S A B} (a : A) (k : A -> M S B) (s : S) :
  bind (ret a) k s = k a s.
Proof. unfold bind, ret. destruct (k a s) as [[r s'] out]. reflexivity. Qed.

Lemma bind_raise {S A B} (e : exn) (k : A -> M S B) (s : S) :
  bind (raise e) k s = (Raise e, s, []).
Proof. reflexivity. Qed.

Lemma bind_put {S B} (s1 : S) (k : unit -> M S B) (s : S) :
  bind (put s1) k s = k tt s1.
Proof. unfold bind, put. destruct (k tt s1) as [[r s'] out]. reflexivity. Qed.

Lemma bind_get {S B} (k : S -> M S B) (s : S) :
  bind get k s = k s s.
Proof. unfold bind, get. destruct (k s s) as [[r s'] out]. reflexivity. Qed.

Lemma bind_emit {S B} (e : event) (k : unit -> M S B) (s : S) :
  bind (emit e) k s =
  (outcome (k tt s), final (k tt s), e :: trace (k tt s)).
Proof. unfold bind, emit. destruct (k tt s) as [[r s'] out]. reflexivity. Qed.

Lemma bind_silent {S A B} (m : M S A) (k : A -> M S B) s a s' :
  m s = (Ok a, s', []) -> bind m k s = k a s'.
Proof.
  intros H. unfold bind. rewrite H. destruct (k a s') as [[o s''] out].
  reflexivity.
Qed.

Lemma bind_assoc {S A B C} (m : M S A) (f : A -> M S B) (g : B -> M S C) s :
  bind (bind m f) g s = bind m (fun x => bind (f x) g) s.
Proof.
  unfold bind. destruct (m s) as [[[a|e] s1] o1]; [|reflexivity].
  destruct (f a s1) as [[[b|e] s2] o2]; [|reflexivity].
  destruct (g b s2) as [[o s3] o3]. rewrite app_assoc. reflexivity.
Qed.

Lemma run_eta {S A} (r : result A * S * list event) :
  (outcome r, final r, trace r) = r.
Proof. destruct r as [[? ?] ?]. reflexivity. Qed.

(** ** The vote gate *)

Lemma vote_threshold_spec (n : Z) :
  vote_threshold n =
  if n <? 3 then (true, None)
  else (false, Some (if n <? 5 then n - 1 else 3)).
Proof.
  unfold vote_threshold.
  destruct (n <? 5) eqn:E5, (n <? 3) eqn:E3; try reflexivity; lia.
Qed.

(** [required_votes] is never read while unassigned: it is unassigned only
    when [is_only_user] is set, and then the gate runs the action. *)
Lemma required_votes_assigned (n : Z) :
  (vote_threshold n).2 = None -> (vote_threshold n).1 = true.
Proof.
  rewrite vote_threshold_spec. destruct (n <? 3); [reflexivity | discriminate].
Qed.

Section VoteGate.

Variables (ctx : Ctx.t) (cmd : string) (func : callable) (param : option Z).
Variables (p : Player.t) (cur : Song.t) (vc : VoiceClient.t).

Let voter := Ctx.author ctx.
Let n := len (Channel.members (VoiceClient.channel vc)).

Hypothesis Hcur : Player.current p = Some cur.
Hypothesis Hvoice : Player.voice p = Some vc.

(** Any one of the four conditions runs the action at once; the gate itself
    leaves the ledger alone on this path. *)
Lemma votes_bypass :
  Member.eqb voter (Song.requester cur)
  || Member.manage_guild voter
  || (n <? 3)
  || (role_in (utils_get (Ctx.guild_roles ctx) "DJ") (Member.roles voter)
      || role_in (utils_get (Ctx.guild_roles ctx) "dj") (Member.roles voter))
  = true ->
  votes ctx cmd func param (Some p) = run_func func param (Some p).
Proof.
  intros Hby. unfold votes, the_player, bind, get, attr, ret.
  rewrite Hcur, Hvoice. fold n voter. rewrite vote_threshold_spec.
  destruct (n <? 3); cbn beta iota zeta; rewrite Hby;
    destruct (run_func func param (Some p)) as [[r s] out]; reflexivity.
Qed.

(** The caller holds none of the three personal bypass conditions. *)
Hypothesis Hreq : Member.eqb voter (Song.requester cur) = false.
Hypothesis Hperm : Member.manage_guild voter = false.
Hypothesis Hdj :
  role_in (utils_get (Ctx.guild_roles ctx) "DJ") (Member.roles voter)
  || role_in (utils_get (Ctx.guild_roles ctx) "dj") (Member.roles voter)
  = false.

Variable pending : gset Z.
Hypothesis Hledger : Player._votes p !! cmd = Some pending.

Lemma votes_counted :
  3 <= n -> Member.id voter ∉ pending ->
  votes ctx cmd func param (Some p) =
  let required := if n <? 5 then n - 1 else 3 in
  let pending' := pending ∪ {[ Member.id voter ]} in
  if Z.of_nat (size pending') >=? required then
    run_func func param
      (Some (Player.set_votes (<[cmd := ∅]> (Player._votes p)) p))
  else
    (Ok tt,
     Some (Player.set_votes (<[cmd := pending']> (Player._votes p)) p),
     [Send (Ctx.channel ctx)
        (capitalize cmd +:+ " vote added, currently at `"
         +:+ str (Z.of_nat (size pending')) +:+ "/" +:+ str required +:+ "`")]).
Proof.
  intros Hn Hnew. unfold votes, the_player, bind, get, attr, ret.
  rewrite Hcur, Hvoice. fold n voter. rewrite vote_threshold_spec.
  destruct (n <? 3) eqn:E3; [lia|]. cbn beta iota zeta.
  rewrite Hreq, Hperm, Hdj. cbn [orb].
  unfold getitem, ret. rewrite Hledger.
  rewrite bool_decide_eq_false_2 by exact Hnew. cbn [negb].
  unfold put, local, ret, send, emit.
  destruct (_ >=? _).
  - destruct (run_func _ _ _) as [[r s] out]. reflexivity.
  - reflexivity.
Qed.

End VoteGate.

(** C1 (amended).  The count [n] the gate uses is the number of ALL members of
    the voice channel, automated ones included.  For a caller who is not the
    requester, has no manage-guild permission and no DJ role, and has not
    voted yet: with [n < 3] the action runs at once; with [3 <= n] the vote is
    added to the [pending] set and the action runs (on a cleared set) exactly
    when the set then holds [n - 1] voters (for [n < 5]) or [3] voters (for
    [5 <= n]); below that the caller is told the count. *)
Theorem votes_threshold (ctx : Ctx.t) (cmd : string) (func : callable)
    (param : option Z) (p : Player.t) (cur : Song.t) (vc : VoiceClient.t)
    (pending : gset Z) :
  let voter := Ctx.author ctx in
  let n := len (Channel.members (VoiceClient.channel vc)) in
  let required := if n <? 5 then n - 1 else 3 in
  let pending' := pending ∪ {[ Member.id voter ]} in
  Player.current p = Some cur ->
  Player.voice p = Some vc ->
  Member.eqb voter (Song.requester cur) = false ->
  Member.manage_guild voter = false ->
  role_in (utils_get (Ctx.guild_roles ctx) "DJ") (Member.roles voter)
  || role_in (utils_get (Ctx.guild_roles ctx) "dj") (Member.roles voter)
  = false ->
  Player._votes p !! cmd = Some pending ->
  Member.id voter ∉ pending ->
  (n < 3 ->
   votes ctx cmd func param (Some p) = run_func func param (Some p))
  /\ (3 <= n -> Z.of_nat (size pending) + 1 < required ->
      votes ctx cmd func param (Some p) =
      (Ok tt,
       Some (Player.set_votes (<[cmd := pending']> (Player._votes p)) p),
       [Send (Ctx.channel ctx)
          (capitalize cmd +:+ " vote added, currently at `"
           +:+ str (Z.of_nat (size pending) + 1) +:+ "/"
           +:+ str required +:+ "`")]))
  /\ (3 <= n -> required <= Z.of_nat (size pending) + 1 ->
      votes ctx cmd func param (Some p) =
      run_func func param
        (Some (Player.set_votes (<[cmd := ∅]> (Player._votes p)) p))).
Proof.
  intros voter n required pending' Hcur Hvoice Hreq Hperm Hdj Hledger Hnew.
  assert (Hsize : Z.of_nat (size pending') = Z.of_nat (size pending) + 1)
    by (unfold pending'; rewrite size_union by set_solver;
        rewrite size_singleton; lia).
  split; [|split].
  - intros Hn. apply (votes_bypass ctx cmd func param p cur vc Hcur Hvoice).
    fold n. destruct (n <? 3) eqn:E; [|lia].
    rewrite !orb_true_r. reflexivity.
  - intros Hn Hlt.
    rewrite (votes_counted ctx cmd func param p cur vc Hcur Hvoice
               Hreq Hperm Hdj pending Hledger Hn Hnew).
    cbn zeta. fold voter n pending' required. rewrite Hsize.
    destruct (_ >=? _) eqn:E; [lia | reflexivity].
  - intros Hn Hge.
    rewrite (votes_counted ctx cmd func param p cur vc Hcur Hvoice
               Hreq Hperm Hdj pending Hledger Hn Hnew).
    cbn zeta. fold voter n pending' required. rewrite Hsize.
    destruct (_ >=? _) eqn:E; [reflexivity | lia].
Qed.

(** C8.  A caller with no bypass condition who is already in the pending set
    of the command is told so; the player (ledger included) is unchanged and
    the action is not run, whatever it is. *)
Theorem votes_repeat_rejected (ctx : Ctx.t) (cmd : string) (func : callable)
    (param : option Z) (p : Player.t) (cur : Song.t) (vc : VoiceClient.t)
    (pending : gset Z) :
  let voter := Ctx.author ctx in
  let n := len (Channel.members (VoiceClient.channel vc)) in
  Player.current p = Some cur ->
  Player.voice p = Some vc ->
  Member.eqb voter (Song.requester cur) = false ->
  Member.manage_guild voter = false ->
  role_in (utils_get (Ctx.guild_roles ctx) "DJ") (Member.roles voter)
  || role_in (utils_get (Ctx.guild_roles ctx) "dj") (Member.roles voter)
  = false ->
  3 <= n ->
  Player._votes p !! cmd = Some pending ->
  Member.id voter ∈ pending ->
  votes ctx cmd func param (Some p) =
  (Ok tt, Some p,
   [Send (Ctx.channel ctx) ("You have already voted to " +:+ cmd +:+ ".")]).
Proof.
  intros voter n Hcur Hvoice Hreq Hperm Hdj Hn Hledger Hin.
  unfold votes, the_player, bind, get, attr, ret.
  rewrite Hcur, Hvoice. fold n voter. rewrite vote_threshold_spec.
  destruct (n <? 3) eqn:E3; [lia|]. cbn beta iota zeta.
  rewrite Hreq, Hperm, Hdj. cbn [orb].
  unfold getitem, ret. rewrite Hledger.
  rewrite bool_decide_eq_true_2 by exact Hin. reflexivity.
Qed.

(** Closed side conditions of the examples: equations and comparisons between
    computed values, and membership in small sets. *)
Ltac concrete :=
  first [ reflexivity
        | vm_compute; reflexivity
        | vm_compute; discriminate
        | cbn; set_solver ].

(** Four members (three people and the bot), one vote pending: the second
    voter is told [2/3]. *)
Lemma votes_threshold_witness :
  let quartet := [human 1; human 2; human 3; robot 9] in
  let p := streaming quartet song_a [song_b] (<["skip" := {[ 3 ]}]> no_votes) in
  votes (ctx_of (human 1)) "skip" (Nullary (emit PlayerSkip)) None (Some p) =
  (Ok tt,
   Some (Player.set_votes (<["skip" := {[ 3 ]} ∪ {[ 1 ]}]> (Player._votes p)) p),
   [Send 5 "Skip vote added, currently at `2/3`"]).
Proof.
  cbv zeta.
  refine (proj1 (proj2 (votes_threshold (ctx_of (human 1)) "skip"
    (Nullary (emit PlayerSkip)) None
    (streaming [human 1; human 2; human 3; robot 9] song_a [song_b]
       (<["skip" := {[ 3 ]}]> no_votes))
    song_a (sink SinkPlaying [human 1; human 2; human 3; robot 9]) {[ 3 ]}
    _ _ _ _ _ _ _)) _ _);
    concrete.
Defined.

(** C1, as stated, fails: two people and the bot make a channel of three
    members, so a caller without privilege is asked for two votes although
    only two occupants are not automated. *)
Lemma votes_count_the_bot :
  let trio := [human 1; human 2; robot 9] in
  let p := streaming trio song_a [song_b] no_votes in
  let r := invoke (skip has_song) (ctx_of (human 1)) tt (Some p) in
  len (non_bots trio) = 2
  /\ r = (Ok tt,
          Some (Player.set_votes (<["skip" := {[ 1 ]}]> no_votes) p),
          [Send 5 "Skip vote added, currently at `1/2`"])
  /\ ~ In PlayerSkip (trace r).
Proof.
  cbv zeta. split; [reflexivity|]. split; [vm_compute; reflexivity|].
  vm_compute. intros [H|[]]. discriminate H.
Qed.

(** The same caller voting a second time, in a channel of four. *)
Lemma votes_repeat_rejected_witness :
  let quartet := [human 1; human 2; human 3; robot 9] in
  let p := streaming quartet song_a [song_b] (<["skip" := {[ 1 ]}]> no_votes) in
  votes (ctx_of (human 1)) "skip" (Nullary (emit PlayerSkip)) None (Some p) =
  (Ok tt, Some p, [Send 5 "You have already voted to skip."]).
Proof.
  cbv zeta.
  refine (votes_repeat_rejected (ctx_of (human 1)) "skip"
    (Nullary (emit PlayerSkip)) None
    (streaming [human 1; human 2; human 3; robot 9] song_a [song_b]
       (<["skip" := {[ 1 ]}]> no_votes))
    song_a (sink SinkPlaying [human 1; human 2; human 3; robot 9]) {[ 1 ]}
    _ _ _ _ _ _ _ _);
    concrete.
Defined.

(** C4: the gate clears the set only on the threshold path.  A moderator
    shuffles while member 4 has a shuffle vote pending: the queue is shuffled
    and the vote of member 4 is still in the ledger afterwards. *)
Theorem bypass_leaves_pending_votes :
  let crowd := [moderator 1; human 2; human 3; human 4; human 5; robot 9] in
  let p := streaming crowd song_a [song_b; song_c]
             (<["shuffle" := {[ 4 ]}]> no_votes) in
  let r := invoke (shuffle (@rev Song.t)) (ctx_of (moderator 1)) tt (Some p) in
  r = (Ok tt, Some (Player.set_songs [song_c; song_b] p),
       [QueueShuffle; Send 5 "**🔀 Shuffled songs**"])
  /\ (s ← final r; Player._votes s !! "shuffle") = Some {[ 4 ]}
  /\ ({[ 4 ]} : gset Z) ≠ ∅.
Proof.
  cbv zeta. split; [vm_compute; reflexivity|]. split; [vm_compute; reflexivity|].
  set_solver.
Qed.

(** ** Checks attached to commands *)

Lemma invoke_unchecked {A} (c : command A) (ctx : Ctx.t) (a : A) :
  checks c = [] -> invoke c ctx a = callback c ctx a.
Proof. intros H. unfold invoke. rewrite H. reflexivity. Qed.

Lemma invoke_is_dj_pass {A} (c : command A) (ctx : Ctx.t) (a : A) :
  checks c = [is_dj] -> is_dj ctx = true -> invoke c ctx a = callback c ctx a.
Proof. intros H Hdj. unfold invoke. rewrite H. cbn. rewrite Hdj. reflexivity. Qed.

Lemma invoke_is_dj_fail {A} (c : command A) (ctx : Ctx.t) (a : A)
    (s : option Player.t) :
  checks c = [is_dj] -> is_dj ctx = false ->
  invoke c ctx a s = (Raise CheckFailure, s, []).
Proof. intros H Hdj. unfold invoke. rewrite H. cbn. rewrite Hdj. reflexivity. Qed.

(** The developer id alone satisfies the predicate. *)
Lemma is_dj_dev (ctx : Ctx.t) :
  Member.id (Ctx.author ctx) = dev -> is_dj ctx = true.
Proof.
  intros H. unfold is_dj. rewrite H, Z.eqb_refl. apply orb_true_r.
Qed.

(** [Player.pause] and [Player.resume] touch the voice client only. *)
Lemma pause_votes p : Player._votes (Player.pause p) = Player._votes p.
Proof.
  unfold Player.pause. destruct (Player.state_of p), (Player.voice p); reflexivity.
Qed.

Lemma resume_votes p : Player._votes (Player.resume p) = Player._votes p.
Proof.
  unfold Player.resume. destruct (Player.state_of p), (Player.voice p); reflexivity.
Qed.

Lemma pause_current p : Player.current (Player.pause p) = Player.current p.
Proof.
  unfold Player.pause. destruct (Player.state_of p), (Player.voice p); reflexivity.
Qed.

Lemma resume_current p : Player.current (Player.resume p) = Player.current p.
Proof.
  unfold Player.resume. destruct (Player.state_of p), (Player.voice p); reflexivity.
Qed.

Create Rewrite HintDb player.
#[local] Hint Rewrite pause_votes resume_votes pause_current resume_current : player.

(** Case analysis on the innermost undecided test of a handler. *)
Ltac split_match :=
  match goal with
  | |- context [match ?x with _ => _ end] =>
      lazymatch x with
      | context [match _ with _ => _ end] => fail
      | _ => destruct x eqn:?
      end
  end.

Ltac run_handler :=
  cbv [ledger_after final outcome trace callback no_player send update
       the_player bind get put emit attr ret raise];
  cbn; repeat (split_match; cbn in *);
  autorewrite with player in *; try reflexivity; try congruence.

Section CommandFacts.

Variable is_playing : Player.t -> bool.
Variable str_float : Q -> string.

Lemma pause_keeps_ledger ctx p :
  ledger_after (callback (pause is_playing) ctx tt (Some p))
  = Some (Player._votes p).
Proof.
  unfold pause. run_handler.
Qed.

Lemma resume_keeps_ledger ctx p :
  ledger_after (callback (resume is_playing) ctx tt (Some p))
  = Some (Player._votes p).
Proof.
  unfold resume. run_handler.
Qed.

Lemma stop_keeps_ledger ctx p :
  ledger_after (callback (stop is_playing) ctx tt (Some p))
  = Some (Player._votes p).
Proof. unfold stop. run_handler. Qed.

Lemma volume_keeps_ledger ctx v p :
  ledger_after (callback (volume is_playing str_float) ctx v (Some p))
  = Some (Player._votes p).
Proof. unfold volume. run_handler. Qed.

End CommandFacts.

(** C10 (amended).  For the author with the developer id the [is_dj]
    predicate holds whatever the guild's roles and the author's roles and
    permissions are, so every command whose check is [is_dj] runs its
    coroutine for this author; [pause], [resume] and [stop] are such
    commands.  (The vote gate does not consult the predicate.) *)
Theorem developer_passes_is_dj (is_playing : Player.t -> bool) (ctx : Ctx.t) :
  Member.id (Ctx.author ctx) = dev ->
  is_dj ctx = true
  /\ (forall A (c : command A) (a : A),
         checks c = [is_dj] -> invoke c ctx a = callback c ctx a)
  /\ invoke (pause is_playing) ctx tt = callback (pause is_playing) ctx tt
  /\ invoke (resume is_playing) ctx tt = callback (resume is_playing) ctx tt
  /\ invoke (stop is_playing) ctx tt = callback (stop is_playing) ctx tt.
Proof.
  intros Hdev. pose proof (is_dj_dev ctx Hdev) as Hdj.
  split; [exact Hdj|]. split.
  - intros A c a Hc. apply invoke_is_dj_pass; assumption.
  - repeat split; apply invoke_is_dj_pass; try reflexivity; exact Hdj.
Qed.

(** The developer, with no role and no permission, pauses a playing song. *)
Lemma developer_passes_is_dj_witness :
  let p := streaming [developer; human 2; robot 9] song_a [song_b] no_votes in
  is_dj (ctx_of developer) = true
  /\ invoke (pause has_song) (ctx_of developer) tt (Some p) =
     (Ok tt, Some (Player.pause p),
      [PlayerPause; Send 5 "**:pause_button: Paused** `A`"]).
Proof.
  cbv zeta.
  destruct (developer_passes_is_dj has_song (ctx_of developer) eq_refl)
    as (Hdj & _ & Hpause & _).
  split; [exact Hdj|]. rewrite Hpause. concrete.
Defined.

(** C10, as stated, fails for vote-gated commands: the developer, who is not
    the requester and has neither permission nor DJ role, votes to skip in a
    channel of six; the vote is counted ([1/3]) and nothing is skipped. *)
Lemma developer_vote_is_counted :
  let crowd := [developer; human 2; human 3; human 4; human 5; robot 9] in
  let p := streaming crowd song_a [song_b] no_votes in
  let r := invoke (skip has_song) (ctx_of developer) tt (Some p) in
  is_dj (ctx_of developer) = true
  /\ r = (Ok tt,
          Some (Player.set_votes (<["skip" := {[ dev ]}]> no_votes) p),
          [Send 5 "Skip vote added, currently at `1/3`"])
  /\ ~ In PlayerSkip (trace r).
Proof.
  cbv zeta. split; [reflexivity|]. split; [vm_compute; reflexivity|].
  vm_compute. intros [H|[]]. discriminate H.
Qed.

Section CommandTheorems.

Variable is_playing : Player.t -> bool.
Variable str_float : Q -> string.

(** The range test of [volume], [0 > volume > 100], holds for no integer. *)
Lemma volume_range_test_dead (v : Z) : (0 >? v) && (v >? 100) = false.
Proof. destruct (0 >? v) eqn:E1, (v >? 100) eqn:E2; try reflexivity; lia. Qed.

(** While a song plays, every non-zero percentage is stored. *)
Lemma volume_stored ctx (v : Z) p vc cur :
  v <> 0 -> is_playing p = true ->
  Player.voice p = Some vc -> Player.current p = Some cur ->
  invoke (volume is_playing str_float) ctx (Some v) (Some p) =
  (Ok tt,
   Some (Player.set_current
           (Some (Song.set_source_volume (truediv v 100) cur))
           (Player.set_voice
              (Some (VoiceClient.set_volume (truediv v 100) vc))
              (Player.set_volume (truediv v 100) p))),
   [Send (Ctx.channel ctx)
      ("**" +:+ get_volume_emoji (inject_Z v) +:+ " Volume:** `"
       +:+ str v +:+ "%`")]).
Proof.
  intros Hv Hplay Hvoice Hcur.
  rewrite invoke_unchecked by reflexivity.
  unfold volume, callback. cbv [bind get]. cbn [fst snd].
  destruct v as [|v|v]; [congruence| |];
    rewrite Hplay; cbn [negb]; rewrite volume_range_test_dead;
    cbv [update the_player bind get put attr ret send emit];
    cbn [Player.voice Player.current Player.set_volume Player.set_voice];
    rewrite Hvoice; cbn; rewrite Hcur; reflexivity.
Qed.

(** C6 (amended).  [pause], [resume] and [stop] carry the [is_dj] check and
    nothing else: when the predicate fails the command raises [CheckFailure]
    and changes nothing, when it holds the coroutine runs.  [volume] carries
    no check: its coroutine runs for every caller.  None of the four goes
    through the vote gate: each leaves the ledger as it found it. *)
Theorem privilege_gated_commands (ctx : Ctx.t) (s : option Player.t) :
  (is_dj ctx = false ->
     invoke (pause is_playing) ctx tt s = (Raise CheckFailure, s, [])
     /\ invoke (resume is_playing) ctx tt s = (Raise CheckFailure, s, [])
     /\ invoke (stop is_playing) ctx tt s = (Raise CheckFailure, s, []))
  /\ (is_dj ctx = true ->
        invoke (pause is_playing) ctx tt s = callback (pause is_playing) ctx tt s
        /\ invoke (resume is_playing) ctx tt s
           = callback (resume is_playing) ctx tt s
        /\ invoke (stop is_playing) ctx tt s = callback (stop is_playing) ctx tt s)
  /\ (forall v, invoke (volume is_playing str_float) ctx v s
                = callback (volume is_playing str_float) ctx v s)
  /\ (forall p v,
        ledger_after (callback (pause is_playing) ctx tt (Some p))
        = Some (Player._votes p)
        /\ ledger_after (callback (resume is_playing) ctx tt (Some p))
           = Some (Player._votes p)
        /\ ledger_after (callback (stop is_playing) ctx tt (Some p))
           = Some (Player._votes p)
        /\ ledger_after (callback (volume is_playing str_float) ctx v (Some p))
           = Some (Player._votes p)).
Proof.
  split; [|split; [|split]].
  - intros Hdj. repeat split; apply invoke_is_dj_fail; try reflexivity; exact Hdj.
  - intros Hdj. repeat split; rewrite invoke_is_dj_pass; try reflexivity; exact Hdj.
  - intros v. rewrite invoke_unchecked; reflexivity.
  - intros p v. repeat split.
    + apply pause_keeps_ledger.
    + apply resume_keeps_ledger.
    + apply stop_keeps_ledger.
    + apply volume_keeps_ledger.
Qed.

End CommandTheorems.

(** A caller without permission, role or developer id is refused by [pause]. *)
Lemma privilege_gated_commands_witness :
  let p := streaming [human 1; human 2; robot 9] song_a [song_b] no_votes in
  invoke (pause has_song) (ctx_of (human 1)) tt (Some p)
  = (Raise CheckFailure, Some p, []).
Proof.
  cbv zeta.
  exact (proj1 (proj1 (privilege_gated_commands has_song (fun _ => "")
                         (ctx_of (human 1)) _) eq_refl)).
Defined.

(** C6, as stated, fails for [volume]: the same caller sets the volume to 30
    per cent and the player stores it. *)
Lemma volume_needs_no_privilege :
  let p := streaming [human 1; human 2; robot 9] song_a [song_b] no_votes in
  let r := invoke (volume has_song (fun _ => "")) (ctx_of (human 1)) (Some 30)
             (Some p) in
  is_dj (ctx_of (human 1)) = false
  /\ outcome r = Ok tt
  /\ trace r = [Send 5 "**:sound: Volume:** `30%`"]
  /\ Player.volume <$> final r = Some (30 # 100)%Q
  /\ Player.volume p = (1 # 2)%Q.
Proof. cbv zeta. repeat split; vm_compute; reflexivity. Qed.

(** C2: a request for 150 per cent while a song plays is not refused; the
    player, the voice client and the audio source all store 1.5 and the
    caller is shown [150%]. *)
Theorem volume_150_is_stored :
  let p := streaming [human 1; human 2; robot 9] song_a [song_b] no_votes in
  let r := invoke (volume has_song (fun _ => "")) (ctx_of (moderator 1))
             (Some 150) (Some p) in
  outcome r = Ok tt
  /\ trace r = [Send 5 "**:loud_sound: Volume:** `150%`"]
  /\ Player.volume <$> final r = Some (150 # 100)%Q
  /\ ~ (150 # 100 == Player.volume p)%Q
  /\ ~ (150 # 100 <= 1)%Q.
Proof.
  cbv zeta. split; [vm_compute; reflexivity|]. split; [vm_compute; reflexivity|].
  split; [vm_compute; reflexivity|]. split.
  - vm_compute. intros H. discriminate H.
  - vm_compute. intros H. apply H. reflexivity.
Qed.

(** ** Loop flags *)

Section LoopFlags.

Variable is_playing : Player.t -> bool.

(** The player a [loop] command leaves behind: untouched when the command
    declines, otherwise toggled with the queue flag off.  (A missing current
    song makes the confirmation message fail, after the flags are written.) *)
Lemma loop_final ctx p :
  final (invoke (loop is_playing) ctx tt (Some p)) =
  Some (if negb (is_playing p) && negb (Player.loop p) then p
        else Player.set_loop_queue false
               (Player.set_loop (negb (Player.loop p)) p)).
Proof.
  rewrite invoke_unchecked by reflexivity. unfold loop. run_handler.
Qed.

Lemma loop_queue_final ctx p :
  final (invoke (loop_queue is_playing) ctx tt (Some p)) =
  Some (if negb (is_playing p) && negb (Player.loop_queue p) then p
        else if (len (Player.songs p) =? 0) && negb (Player.loop_queue p) then p
        else Player.set_loop false
               (Player.set_loop_queue (negb (Player.loop_queue p)) p)).
Proof.
  rewrite invoke_unchecked by reflexivity. unfold loop_queue. run_handler.
Qed.

(** C7.  Whatever the two flags were before: a [loop] command that sets the
    single-song flag leaves the queue flag off, a [loop queue] command that
    sets the queue flag leaves the single-song flag off, and after either
    command the two flags are never both on.  Whenever a command goes past its
    guards it writes the other flag off. *)
Theorem loop_modes_exclusive (ctx : Ctx.t) (s : option Player.t) :
  let after_loop := final (invoke (loop is_playing) ctx tt s) in
  let after_loop_queue := final (invoke (loop_queue is_playing) ctx tt s) in
  (forall p', after_loop = Some p' ->
     (Player.loop p' = true -> Player.loop_queue p' = false)
     /\ Player.loop p' && Player.loop_queue p' = false)
  /\ (forall p', after_loop_queue = Some p' ->
        (Player.loop_queue p' = true -> Player.loop p' = false)
        /\ Player.loop p' && Player.loop_queue p' = false)
  /\ (forall p, s = Some p ->
        negb (is_playing p) && negb (Player.loop p) = false ->
        after_loop = Some (Player.set_loop_queue false
                             (Player.set_loop (negb (Player.loop p)) p)))
  /\ (forall p, s = Some p ->
        negb (is_playing p) && negb (Player.loop_queue p) = false ->
        (len (Player.songs p) =? 0) && negb (Player.loop_queue p) = false ->
        after_loop_queue = Some (Player.set_loop false
                                   (Player.set_loop_queue
                                      (negb (Player.loop_queue p)) p))).
Proof.
  cbv zeta. split; [|split; [|split]].
  - intros p' H. destruct s as [p|]; [|discriminate H].
    rewrite loop_final in H. injection H as <-.
    destruct (is_playing p), (Player.loop p) eqn:El, (Player.loop_queue p) eqn:Eq;
      cbn; rewrite ?El, ?Eq; cbn; split; congruence.
  - intros p' H. destruct s as [p|]; [|discriminate H].
    rewrite loop_queue_final in H. injection H as <-.
    destruct (is_playing p), (len (Player.songs p) =? 0),
      (Player.loop p) eqn:El, (Player.loop_queue p) eqn:Eq;
      cbn; rewrite ?El, ?Eq; cbn; split; congruence.
  - intros p -> Hg. rewrite loop_final, Hg. reflexivity.
  - intros p -> Hg1 Hg2. rewrite loop_queue_final, Hg1, Hg2. reflexivity.
Qed.

End LoopFlags.

(** Both flags on beforehand (not reachable through the commands, but covered):
    either command leaves both off. *)
Lemma loop_modes_exclusive_witness :
  let p := Player.set_loop true
             (Player.set_loop_queue true
                (streaming [human 1; robot 9] song_a [song_b] no_votes)) in
  final (invoke (loop has_song) (ctx_of (human 1)) tt (Some p))
  = Some (Player.set_loop_queue false (Player.set_loop false p))
  /\ final (invoke (loop_queue has_song) (ctx_of (human 1)) tt (Some p))
     = Some (Player.set_loop false (Player.set_loop_queue false p)).
Proof.
  cbv zeta.
  destruct (loop_modes_exclusive has_song (ctx_of (human 1))
              (Some (Player.set_loop true
                       (Player.set_loop_queue true
                          (streaming [human 1; robot 9] song_a [song_b] no_votes)))))
    as (_ & _ & H1 & H2).
  split.
  - exact (H1 _ eq_refl eq_refl).
  - exact (H2 _ eq_refl eq_refl eq_refl).
Defined.

(** ** The inactivity listener *)


Lemma deref_run r b q :
  Bot.objects b !! r = Some q -> deref r b = (Ok q, b, []).
Proof. intros H. unfold deref, bind, get, attr. rewrite H. reflexivity. Qed.

Lemma modify_run r f b q :
  Bot.objects b !! r = Some q ->
  modify r f b = (Ok tt, Bot.set_objects (<[r := f q]> (Bot.objects b)) b, []).
Proof.
  intros H. unfold modify, bind. rewrite (deref_run r b q H). reflexivity.
Qed.

Lemma del_player_run guild b r :
  Bot.players b !! guild = Some r ->
  del_player guild b
  = (Ok tt, Bot.set_players (delete guild (Bot.players b)) b, []).
Proof. intros H. unfold del_player, bind, get, put. rewrite H. reflexivity. Qed.

(** [wait_for] returns exactly when some dispatch arrives in time and passes
    the check. *)
Lemma wait_for_returns timeout chk updates u :
  In u updates -> at_second u <= timeout ->
  chk (who u) (before_channel u) (after_channel u) = true ->
  exists u', wait_for timeout chk updates = Ok u'.
Proof.
  intros Hin Ht Hc. unfold wait_for.
  destruct (find _ updates) as [u'|] eqn:E; [eauto|].
  pose proof (find_none _ _ E u Hin) as Hn. cbn in Hn.
  rewrite Hc in Hn. destruct (at_second u <=? timeout) eqn:El; [discriminate|lia].
Qed.

Lemma wait_for_times_out timeout chk updates :
  (forall u, In u updates -> at_second u <= timeout ->
             chk (who u) (before_channel u) (after_channel u) = false) ->
  wait_for timeout chk updates = Raise TimeoutError.
Proof.
  intros H. unfold wait_for.
  destruct (find _ updates) as [u|] eqn:E; [|reflexivity].
  apply find_some in E as [Hin Hu]. apply andb_prop in Hu as [Ht Hc].
  rewrite H in Hc; [discriminate | exact Hin | lia].
Qed.

(** After [Player.stop] the object is in the terminal state, and [resume]
    no longer moves it. *)
Lemma stop_destroyed p : Player.state_of (Player.stop p) = Player.Destroyed.
Proof. reflexivity. Qed.

Lemma resume_after_stop p : Player.resume (Player.stop p) = Player.stop p.
Proof. reflexivity. Qed.

Lemma resume_pause_playing p :
  Player.state_of p = Player.Playing \/ Player.state_of p = Player.Paused ->
  Player.state_of (Player.resume (Player.pause p)) = Player.Playing.
Proof.
  unfold Player.pause, Player.resume, Player.state_of.
  destruct (Player.destroyed p) eqn:Ed; [intros [H|H]; discriminate H|].
  destruct (Player.voice p) as [v|] eqn:Ev; [|intros [H|H]; discriminate H].
  destruct (VoiceClient.status v) eqn:Es; intros [H|H]; try discriminate H;
    repeat (cbn; rewrite ?Ed, ?Ev, ?Es); reflexivity.
Qed.

Lemma pause_songs p : Player.songs (Player.pause p) = Player.songs p.
Proof.
  unfold Player.pause. destruct (Player.state_of p), (Player.voice p); reflexivity.
Qed.

Lemma pause_text_channel p :
  Player.text_channel (Player.pause p) = Player.text_channel p.
Proof.
  unfold Player.pause. destruct (Player.state_of p), (Player.voice p); reflexivity.
Qed.

Lemma len_positive {A} (l : list A) : l <> [] -> (len l >? 0) = true.
Proof. destruct l; [congruence|]. intros _. reflexivity. Qed.

Section ListenerFacts.

Variable paste_key : string -> result string.

Variables (guild : Z) (member : Member.t) (before after : option Channel.t).
Variables (updates : list voice_update).
Variables (b : Bot.t) (r : N) (p : Player.t) (vc : VoiceClient.t).

(** A person's voice state changed, the guild has a connected player, and no
    person is left in the player's channel. *)
Hypothesis Hperson : Member.bot member = false.
Hypothesis Hreg : Bot.players b !! guild = Some r.
Hypothesis Hobj : Bot.objects b !! r = Some p.
Hypothesis Hvoice : Player.voice p = Some vc.
Hypothesis Hempty : non_bots (Channel.members (VoiceClient.channel vc)) = [].

Let run := on_voice_leave paste_key guild member before after updates b.

Ltac enter_wait :=
  unfold run, on_voice_leave; rewrite Hperson;
  rewrite bind_get, Hreg;
  rewrite (bind_silent _ _ _ _ _ (deref_run r b p Hobj));
  rewrite Hvoice, Hempty;
  change (len (@nil Member.t) >? 0) with false; cbv iota zeta;
  rewrite bind_emit;
  rewrite (bind_silent _ _ _ _ _ (modify_run r Player.pause b p Hobj)).

Lemma rejoin_run u :
  In u updates -> at_second u <= 120 ->
  check (VoiceClient.channel vc) (who u) (before_channel u) (after_channel u)
  = true ->
  run = (Ok tt,
         Bot.set_objects
           (<[r := Player.resume (Player.pause p)]> (Bot.objects b)) b,
         [PlayerPause; PlayerResume]).
Proof.
  intros Hin Ht Hc.
  destruct (wait_for_returns 120 _ updates u Hin Ht Hc) as [u' Hw].
  enter_wait. rewrite Hw. rewrite bind_emit.
  erewrite modify_run by (cbn; apply lookup_insert_eq).
  cbn. rewrite insert_insert_eq. reflexivity.
Qed.

(** The bot once the player object is stopped and out of the registry. *)
Let torn_down : Bot.t :=
  {| Bot.objects := <[r := Player.stop (Player.pause p)]> (Bot.objects b);
     Bot.players := delete guild (Bot.players b) |}.

(** Nobody comes back by the deadline. *)
Hypothesis Hnobody :
  forall u, In u updates -> at_second u <= 120 ->
    check (VoiceClient.channel vc) (who u) (before_channel u) (after_channel u)
    = false.

Ltac enter_timeout :=
  enter_wait; rewrite (wait_for_times_out _ _ _ Hnobody);
  erewrite (bind_silent (deref r)) by (apply deref_run; cbn; apply lookup_insert_eq);
  rewrite pause_songs.

Ltac tear_down :=
  rewrite bind_emit;
  erewrite (bind_silent (modify r Player.stop))
    by (apply modify_run; cbn; apply lookup_insert_eq);
  erewrite (bind_silent (del_player guild))
    by (eapply del_player_run; cbn; exact Hreg);
  cbn [Bot.objects Bot.players Bot.set_objects Bot.set_players];
  rewrite insert_insert_eq.

Lemma timeout_run_empty :
  Player.songs p = [] ->
  run = (Ok tt, torn_down, [PlayerPause; PlayerStop; PlayerResume]).
Proof.
  intros Hq. enter_timeout. rewrite Hq.
  change (len (@nil Song.t) >? 0) with false. cbv iota.
  rewrite bind_ret_l. tear_down. rewrite bind_emit.
  erewrite modify_run by (cbn; apply lookup_insert_eq).
  cbn. rewrite insert_insert_eq. reflexivity.
Qed.

Variable cur : Song.t.
Hypothesis Hcur : Player.current p = Some cur.

Let text : string := Py.join nl (Song.url cur :: map Song.url (Player.songs p)).

Lemma timeout_run_saved key :
  Player.songs p <> [] -> paste_key text = Ok key ->
  run = (Ok tt, torn_down,
         [PlayerPause; PlayerStop;
          HttpPost "https://mystb.in/documents" text;
          Send (Player.text_channel p)
            ("**I saved your queue!**" +:+ nl +:+
             "To resume where you left off, use this link with the `playbin` command: **"
             +:+ ("https://mystb.in" +:+ "/" +:+ key) +:+ "**");
          PlayerResume]).
Proof.
  intros Hq Hkey. enter_timeout. rewrite (len_positive _ Hq). cbv iota zeta.
  rewrite pause_current, Hcur. cbn [attr]. rewrite bind_assoc, !bind_ret_l.
  tear_down. unfold post. rewrite bind_assoc, bind_emit. fold text. rewrite Hkey.
  rewrite bind_ret_l. cbv iota. rewrite !bind_emit.
  erewrite modify_run by (cbn; apply lookup_insert_eq).
  cbn. rewrite insert_insert_eq, pause_text_channel. reflexivity.
Qed.

Lemma timeout_run_failed e :
  Player.songs p <> [] -> paste_key text = Raise e ->
  run = (Raise e, torn_down,
         [PlayerPause; PlayerStop; HttpPost "https://mystb.in/documents" text]).
Proof.
  intros Hq Hkey. enter_timeout. rewrite (len_positive _ Hq). cbv iota zeta.
  rewrite pause_current, Hcur. cbn [attr]. rewrite bind_assoc, !bind_ret_l.
  tear_down. unfold post. rewrite bind_assoc, bind_emit. fold text. rewrite Hkey.
  reflexivity.
Qed.

End ListenerFacts.

(** C5.  When a person arrives in the player's channel within 120 seconds
    (a dispatch [u] passing the check), the listener resumes the player it
    had paused: [resume] is called, nothing is posted to the paste service,
    the player is not stopped and stays in the registry, and a player that was
    playing (or already paused) ends up playing. *)
Theorem rejoin_resumes (paste_key : string -> result string) (guild : Z)
    (member : Member.t) (before after : option Channel.t)
    (updates : list voice_update) (b : Bot.t) (r : N) (p : Player.t)
    (vc : VoiceClient.t) (u : voice_update) (c : Channel.t) :
  let run := on_voice_leave paste_key guild member before after updates b in
  Member.bot member = false ->
  Bot.players b !! guild = Some r ->
  Bot.objects b !! r = Some p ->
  Player.voice p = Some vc ->
  non_bots (Channel.members (VoiceClient.channel vc)) = [] ->
  In u updates ->
  at_second u < 120 ->
  Member.bot (who u) = false ->
  after_channel u = Some c ->
  Channel.id c = Channel.id (VoiceClient.channel vc) ->
  run = (Ok tt,
         Bot.set_objects
           (<[r := Player.resume (Player.pause p)]> (Bot.objects b)) b,
         [PlayerPause; PlayerResume])
  /\ In PlayerResume (trace run)
  /\ (forall url body, ~ In (HttpPost url body) (trace run))
  /\ ~ In PlayerStop (trace run)
  /\ Bot.players (final run) !! guild = Some r
  /\ (Player.state_of p = Player.Playing \/ Player.state_of p = Player.Paused ->
      Player.state_of <$> Bot.player_of (final run) guild = Some Player.Playing).
Proof.
  intros run Hperson Hreg Hobj Hvoice Hempty Hin Ht Hbot Hafter Hsame.
  assert (Hrun : run = (Ok tt,
            Bot.set_objects
              (<[r := Player.resume (Player.pause p)]> (Bot.objects b)) b,
            [PlayerPause; PlayerResume])).
  { apply (rejoin_run paste_key guild member before after updates b r p vc
             Hperson Hreg Hobj Hvoice Hempty u Hin (Z.lt_le_incl _ _ Ht)).
    unfold check, Channel.eqb. rewrite Hbot, Hafter, Hsame, Z.eqb_refl.
    reflexivity. }
  rewrite Hrun. cbn [trace final fst snd]. repeat split.
  - right. left. reflexivity.
  - intros url body [H|[H|[]]]; discriminate H.
  - intros [H|[H|[]]]; discriminate H.
  - exact Hreg.
  - intros Hst. unfold Bot.player_of. cbn. rewrite Hreg. cbn.
    rewrite lookup_insert_eq. cbn. rewrite (resume_pause_playing p Hst).
    reflexivity.
Qed.

(** C3 (amended).  When nobody arrives by second 120 (and a current song
    exists whenever the queue is non-empty), the player object is stopped and
    its guild removed from the registry, whatever the paste service answers.
    The paste service is called exactly when the QUEUE is non-empty; the text
    posted is then the URL of the current song followed by the URLs of the
    queue in order, one per line. *)
Theorem inactivity_timeout (paste_key : string -> result string) (guild : Z)
    (member : Member.t) (before after : option Channel.t)
    (updates : list voice_update) (b : Bot.t) (r : N) (p : Player.t)
    (vc : VoiceClient.t) (cur : Song.t) :
  let run := on_voice_leave paste_key guild member before after updates b in
  let text := Py.join nl (Song.url cur :: map Song.url (Player.songs p)) in
  Member.bot member = false ->
  Bot.players b !! guild = Some r ->
  Bot.objects b !! r = Some p ->
  Player.voice p = Some vc ->
  non_bots (Channel.members (VoiceClient.channel vc)) = [] ->
  (forall u, In u updates -> at_second u <= 120 ->
     check (VoiceClient.channel vc) (who u) (before_channel u) (after_channel u)
     = false) ->
  (Player.songs p <> [] -> Player.current p = Some cur) ->
  Bot.players (final run) = delete guild (Bot.players b)
  /\ Bot.objects (final run) !! r = Some (Player.stop (Player.pause p))
  /\ Player.state_of (Player.stop (Player.pause p)) = Player.Destroyed
  /\ In PlayerStop (trace run)
  /\ (Player.songs p = [] ->
      forall url body, ~ In (HttpPost url body) (trace run))
  /\ (Player.songs p <> [] ->
      In (HttpPost "https://mystb.in/documents" text) (trace run)
      /\ forall url body, In (HttpPost url body) (trace run) -> body = text).
Proof.
  intros run text Hperson Hreg Hobj Hvoice Hempty Hnobody Hcur.
  assert (Hrun : exists o t,
             run = (o, {| Bot.objects :=
                            <[r := Player.stop (Player.pause p)]> (Bot.objects b);
                          Bot.players := delete guild (Bot.players b) |}, t)
             /\ In PlayerStop t
             /\ (Player.songs p = [] -> forall url body, ~ In (HttpPost url body) t)
             /\ (Player.songs p <> [] ->
                 In (HttpPost "https://mystb.in/documents" text) t
                 /\ forall url body, In (HttpPost url body) t -> body = text)).
  { destruct (Player.songs p) as [|s q] eqn:Hq.
    - exists (Ok tt), [PlayerPause; PlayerStop; PlayerResume]. split.
      + apply (timeout_run_empty paste_key guild member before after updates
                 b r p vc Hperson Hreg Hobj Hvoice Hempty Hnobody Hq).
      + split; [right; left; reflexivity|]. split; [|congruence].
        intros _ url body [H|[H|[H|[]]]]; discriminate H.
    - assert (Hne : Player.songs p <> []) by (rewrite Hq; discriminate).
      assert (Hc : Player.current p = Some cur) by (apply Hcur; discriminate).
      assert (Htext : text = Py.join nl
                (Song.url cur :: map Song.url (Player.songs p)))
        by (unfold text; rewrite Hq; reflexivity).
      destruct (paste_key text) as [key|e] eqn:Hkey; rewrite Htext in Hkey.
      + eexists _, _. split.
        * apply (timeout_run_saved paste_key guild member before after updates
                   b r p vc Hperson Hreg Hobj Hvoice Hempty Hnobody cur Hc
                   key Hne Hkey).
        * rewrite <- Htext.
          split; [right; left; reflexivity|]. split; [discriminate|].
          intros _. split; [right; right; left; reflexivity|].
          intros url body [H|[H|[H|[H|[H|[]]]]]]; try discriminate H.
          inversion H. reflexivity.
      + eexists _, _. split.
        * apply (timeout_run_failed paste_key guild member before after updates
                   b r p vc Hperson Hreg Hobj Hvoice Hempty Hnobody cur Hc
                   e Hne Hkey).
        * rewrite <- Htext.
          split; [right; left; reflexivity|]. split; [discriminate|].
          intros _. split; [right; right; left; reflexivity|].
          intros url body [H|[H|[H|[]]]]; try discriminate H.
          inversion H. reflexivity. }
  destruct Hrun as (o & t & Hrun & Hstop & Hnone & Hsome).
  rewrite Hrun. cbn [trace final fst snd Bot.players Bot.objects].
  rewrite lookup_insert_eq.
  split; [reflexivity|]. split; [reflexivity|]. split; [reflexivity|].
  split; [exact Hstop|]. split; [exact Hnone | exact Hsome].
Qed.

(** A bot arrives after 30 seconds (ignored), a person after 60. *)
Lemma rejoin_resumes_witness :
  let b := bot_with (lonely [song_b; song_c]) in
  on_voice_leave paste_ok 1 (human 1) (Some (room [robot 9])) None
    [arrival 30 (robot 4); arrival 60 (human 1)] b
  = (Ok tt,
     Bot.set_objects
       (<[0%N := Player.resume (Player.pause (lonely [song_b; song_c]))]>
          (Bot.objects b)) b,
     [PlayerPause; PlayerResume]).
Proof.
  cbv zeta.
  refine (proj1 (rejoin_resumes paste_ok 1 (human 1) (Some (room [robot 9])) None
    [arrival 30 (robot 4); arrival 60 (human 1)]
    (bot_with (lonely [song_b; song_c])) 0%N (lonely [song_b; song_c])
    (sink SinkPlaying [robot 9]) (arrival 60 (human 1))
    (room [human 1; robot 9]) _ _ _ _ _ _ _ _ _ _)); concrete.
Defined.

(** The only arrival comes at second 121, too late: the queue [B; C] is
    saved behind the current song [A] and the player is torn down. *)
Lemma inactivity_timeout_witness :
  let b := bot_with (lonely [song_b; song_c]) in
  let run := on_voice_leave paste_ok 1 (human 1) (Some (room [robot 9])) None
               [arrival 121 (human 1)] b in
  Bot.players (final run) = delete 1 (Bot.players b)
  /\ In PlayerStop (trace run)
  /\ In (HttpPost "https://mystb.in/documents"
           (Py.join nl ["https://youtu.be/a"; "https://youtu.be/b";
                        "https://youtu.be/c"]))
        (trace run).
Proof.
  cbv zeta.
  assert (Hnobody : forall u, In u [arrival 121 (human 1)] -> at_second u <= 120 ->
            check (VoiceClient.channel (sink SinkPlaying [robot 9]))
              (who u) (before_channel u) (after_channel u) = false).
  { intros u [<-|[]] H. cbn in H. lia. }
  destruct (inactivity_timeout paste_ok 1 (human 1) (Some (room [robot 9])) None
    [arrival 121 (human 1)]
    (bot_with (lonely [song_b; song_c])) 0%N (lonely [song_b; song_c])
    (sink SinkPlaying [robot 9]) song_a
    eq_refl eq_refl eq_refl eq_refl eq_refl Hnobody (fun _ => eq_refl))
    as (Hreg & _ & _ & Hstop & _ & Hpost).
  split; [exact Hreg|]. split; [exact Hstop|].
  apply Hpost. discriminate.
Defined.

(** C3, as stated, fails: with a current song and an empty queue the snapshot
    "current song plus queue" is not empty, yet nothing is posted. *)
Lemma current_song_alone_is_not_saved :
  let p := lonely [] in
  let run := on_voice_leave paste_ok 1 (human 1) (Some (room [robot 9])) None []
               (bot_with p) in
  (from_option (fun s => [Song.url s]) [] (Player.current p)
     ++ map Song.url (Player.songs p))%list = ["https://youtu.be/a"]
  /\ outcome run = Ok tt
  /\ trace run = [PlayerPause; PlayerStop; PlayerResume]
  /\ forall url body, ~ In (HttpPost url body) (trace run).
Proof.
  cbv zeta. split; [reflexivity|]. split; [vm_compute; reflexivity|].
  assert (H : trace (on_voice_leave paste_ok 1 (human 1) (Some (room [robot 9]))
                       None [] (bot_with (lonely [])))
              = [PlayerPause; PlayerStop; PlayerResume])
    by (vm_compute; reflexivity).
  split; [exact H|]. rewrite H.
  intros url body [E|[E|[E|[]]]]; discriminate E.
Qed.

(** ** Resolution and its timeout *)

Lemma timeout_late {S A} (limit : Z) (r : reply A) (s : S) :
  limit <= elapsed r -> timeout limit r s = (Raise TimeoutError, s, []).
Proof.
  intros H. unfold timeout. destruct (elapsed r <? limit) eqn:E; [lia|].
  reflexivity.
Qed.

Lemma timeout_in_time {S A} (limit : Z) (r : reply A) (s : S) :
  elapsed r < limit -> timeout limit r s = await r s.
Proof.
  intros H. unfold timeout. destruct (elapsed r <? limit) eqn:E; [|lia].
  reflexivity.
Qed.

Section ResolutionFacts.

Variable is_playing : Player.t -> bool.
Variable str_song : Song.t -> string.
Variable new_player : Ctx.t -> Player.t.
Variable channel_name : Z -> string.
Variable connect : Channel.t -> result VoiceClient.t.
Variable get_song : string -> reply (option Song.t).
Variable get_song_from_db : string -> reply (option Song.t).
Variable get_playlist : string -> reply (list (option Song.t) * Z).
Variable URLS_match : string -> bool.
Variable YT_URLS_match : string -> bool.

Let run_play_song :=
  play_song is_playing str_song new_player channel_name connect get_song
    get_song_from_db get_playlist URLS_match YT_URLS_match.

(** The query after the angle brackets are stripped, and the resolver call
    [play_song] makes for it. *)
Let cleaned (query : string) : string :=
  if startswith query "<" && endswith query ">" then strip query "<>"
  else query.

Let lookup (lt : LocationType) (query : string) : reply (option Song.t) :=
  match lt with
  | db => get_song_from_db (cleaned query)
  | _ => get_song (cleaned query)
  end.

(** C9 (amended).  The single-song resolution of [play_song] ([get_song] or
    [get_song_from_db]) is bounded by 180 seconds: a reply that takes 180
    seconds or more, whatever it would have been, yields the message
    "Timed out while fetching song. Sorry.", no exception, and the player
    (queue included) as it was. *)
Theorem play_song_times_out (ctx : Ctx.t) (lt : LocationType) (query : string)
    (p : Player.t) (vc : VoiceClient.t) :
  Player.voice p = Some vc ->
  lt <> bin ->
  URLS_match (cleaned query) && YT_URLS_match (cleaned query)
    && contains (cleaned query) "list=" = false ->
  180 <= elapsed (lookup lt query) ->
  run_play_song ctx (Some lt) query (Some p) =
  (Ok tt, Some p,
   [Send (Ctx.channel ctx) ("**:mag: Searching** `" +:+ cleaned query +:+ "`");
    Typing;
    Send (Ctx.channel ctx) "Timed out while fetching song. Sorry."]).
Proof.
  intros Hvoice Hlt Hurl Hlate.
  unfold run_play_song, play_song.
  unfold the_player. rewrite bind_assoc, bind_get. cbn [attr].
  rewrite bind_ret_l, Hvoice. rewrite bind_ret_l. cbn [attr].
  rewrite bind_ret_l.
  destruct lt; try congruence; fold (cleaned query); rewrite Hurl;
    unfold send; rewrite !bind_emit; unfold try_except;
    rewrite (timeout_late 180 _ _ Hlate); reflexivity.
Qed.

(** A song that arrives in time is appended to the queue. *)
Lemma play_song_enqueues (ctx : Ctx.t) (lt : LocationType) (query : string)
    (p : Player.t) (vc : VoiceClient.t) (song : Song.t) :
  Player.voice p = Some vc ->
  lt <> bin ->
  URLS_match (cleaned query) && YT_URLS_match (cleaned query)
    && contains (cleaned query) "list=" = false ->
  elapsed (lookup lt query) < 180 ->
  answer (lookup lt query) = Ok (Some song) ->
  final (run_play_song ctx (Some lt) query (Some p))
  = Some (Player.set_songs (Player.songs p ++ [song])%list p).
Proof.
  intros Hvoice Hlt Hurl Hfast Hans.
  unfold run_play_song, play_song.
  unfold the_player. rewrite bind_assoc, bind_get. cbn [attr].
  rewrite bind_ret_l, Hvoice. rewrite bind_ret_l. cbn [attr].
  rewrite bind_ret_l.
  destruct lt; try congruence; fold (cleaned query); rewrite Hurl;
    unfold send; rewrite !bind_emit; unfold try_except;
    rewrite (timeout_in_time 180 _ _ Hfast); unfold await;
    rewrite Hans;
    unfold songs_put, update, the_player, bind, get, put, attr, ret, emit;
    cbn; repeat (split_match; cbn); reflexivity.
Qed.

End ResolutionFacts.

(** Nothing in the guild is a URL, the database is empty, and YouTube needs
    exactly 180 seconds to find song B: one second too many. *)
Lemma play_song_times_out_witness :
  let p := streaming [human 1; robot 9] song_a [] no_votes in
  play_song has_song Song.title (fun _ => lonely []) (fun _ => "general")
    (fun _ => Raise ClientError)
    (fun _ => after 180 (Some song_b)) (fun _ => after 1 None)
    (fun _ => after 1 ([], 0))
    (fun _ => false) (fun _ => false)
    (ctx_of (human 1)) (Some youtube) "hat kid electro" (Some p)
  = (Ok tt, Some p,
     [Send 5 "**:mag: Searching** `hat kid electro`"; Typing;
      Send 5 "Timed out while fetching song. Sorry."]).
Proof.
  cbv zeta.
  refine (play_song_times_out has_song Song.title (fun _ => lonely [])
    (fun _ => "general") (fun _ => Raise ClientError)
    (fun _ => after 180 (Some song_b)) (fun _ => after 1 None)
    (fun _ => after 1 ([], 0))
    (fun _ => false) (fun _ => false)
    (ctx_of (human 1)) youtube "hat kid electro"
    (streaming [human 1; robot 9] song_a [] no_votes)
    (sink SinkPlaying [human 1; robot 9]) _ _ _ _); concrete.
Defined.

(** C9, as stated, fails for the other resolver calls: the playlist fetch of
    [fetch_yt_playlist] and the per-line fetches of [hastebin_playlist] are
    awaited without a timeout.  A reply that takes 200 seconds is waited for
    and its songs are enqueued. *)
Lemma playlist_and_bin_fetches_are_unbounded :
  let p := streaming [human 1; robot 9] song_a [] no_votes in
  let r := fetch_yt_playlist (fun _ => after 200 ([Some song_b; Some song_c], 0))
             (ctx_of (human 1)) "https://www.youtube.com/playlist?list=PL1"
             (Some p) in
  let r' := fetch_videos (fun _ => after 200 (Some song_b)) (ctx_of (human 1))
              ["https://youtu.be/b"] (Some p) in
  outcome r = Ok tt
  /\ final r = Some (Player.set_songs [song_b; song_c] p)
  /\ ~ In (Send 5 "Timed out while fetching song. Sorry.") (trace r)
  /\ r' = (Ok tt, Some (Player.set_songs [song_b] p), []).
Proof.
  cbv zeta. split; [vm_compute; reflexivity|]. split; [vm_compute; reflexivity|].
  split; [|vm_compute; reflexivity].
  vm_compute. intros [H|[H|[]]]; discriminate H.
Qed.

(** ** Further properties of the vote gate *)

Lemma votes_run ctx cmd func param p cur vc :
  Player.current p = Some cur -> Player.voice p = Some vc ->
  votes ctx cmd func param (Some p) =
  if bypass ctx cur vc then run_func func param (Some p)
  else
    match Player._votes p !! cmd with
    | None => (Raise KeyError, Some p, [])
    | Some pending =>
        if bool_decide (Member.id (Ctx.author ctx) ∈ pending) then
          (Ok tt, Some p,
           [Send (Ctx.channel ctx) ("You have already voted to " +:+ cmd +:+ ".")])
        else
          let n := len (Channel.members (VoiceClient.channel vc)) in
          let required := if n <? 5 then n - 1 else 3 in
          let pending' := pending ∪ {[ Member.id (Ctx.author ctx) ]} in
          if Z.of_nat (size pending') >=? required then
            run_func func param
              (Some (Player.set_votes (<[cmd := ∅]> (Player._votes p)) p))
          else
            (Ok tt,
             Some (Player.set_votes (<[cmd := pending']> (Player._votes p)) p),
             [Send (Ctx.channel ctx)
                (capitalize cmd +:+ " vote added, currently at `"
                 +:+ str (Z.of_nat (size pending')) +:+ "/"
                 +:+ str required +:+ "`")])
    end.
Proof.
  intros Hcur Hvoice. unfold votes, the_player, bind, get, attr, ret, bypass.
  rewrite Hcur, Hvoice. rewrite vote_threshold_spec.
  set (n := len (Channel.members (VoiceClient.channel vc))).
  destruct (n <? 3) eqn:E3; cbn beta iota zeta.
  - rewrite !orb_true_r. cbn [orb].
    destruct (run_func func param (Some p)) as [[o s] t]. reflexivity.
  - rewrite orb_false_r.
    destruct (_ || _ || _) eqn:Eb.
    + destruct (run_func func param (Some p)) as [[o s] t]. reflexivity.
    + unfold getitem, ret. destruct (Player._votes p !! cmd) as [pending|];
        [|reflexivity].
      destruct (bool_decide _); cbn [negb]; [reflexivity|].
      unfold put, local, ret, send, emit.
      destruct (_ >=? _); [|reflexivity].
      destruct (run_func _ _ _) as [[o s] t]. reflexivity.
Qed.

(** X1.  [required_votes] is never read unassigned.  The branch of [votes]
    that leaves it unassigned (fewer than three members in the voice channel)
    sets [is_only_user], so the comparison [total_votes >= required_votes] is
    not reached there: the gate ends in [UnboundLocalError] only when the
    action itself raises it. *)
Theorem votes_threshold_assigned (ctx : Ctx.t) (cmd : string) (func : callable)
    (param : option Z) (s : option Player.t) :
  (forall s', outcome (run_func func param s') <> Raise UnboundLocalError) ->
  outcome (votes ctx cmd func param s) <> Raise UnboundLocalError.
Proof.
  intros Hfunc.
  destruct s as [p|]; [|cbn; discriminate].
  destruct (Player.current p) as [cur|] eqn:Hcur;
    [|unfold votes, the_player, bind, get, attr, ret; rewrite Hcur; cbn;
      discriminate].
  destruct (Player.voice p) as [vc|] eqn:Hvoice;
    [|unfold votes, the_player, bind, get, attr, ret; rewrite Hcur, Hvoice; cbn;
      discriminate].
  rewrite (votes_run ctx cmd func param p cur vc Hcur Hvoice).
  destruct (bypass ctx cur vc); [apply Hfunc|].
  destruct (Player._votes p !! cmd) as [pending|]; [|cbn; discriminate].
  destruct (bool_decide _); [cbn; discriminate|]. cbv zeta.
  destruct (_ >=? _); [apply Hfunc | cbn; discriminate].
Qed.

(** Two members in the channel, the branch without an assignment: a listener
    who did not request the song skips it at once. *)
Lemma votes_threshold_assigned_witness :
  let p := streaming [human 1; robot 9] song_a [song_b] no_votes in
  vote_threshold (len [human 1; robot 9]) = (true, None)
  /\ outcome (votes (ctx_of (human 1)) "skip" (Nullary (emit PlayerSkip)) None
                (Some p)) <> Raise UnboundLocalError.
Proof.
  cbv zeta. split; [reflexivity|].
  apply (votes_threshold_assigned (ctx_of (human 1)) "skip"
           (Nullary (emit PlayerSkip)) None).
  intros s'. cbn. discriminate.
Defined.

(** X2.  A first vote below the threshold followed by a second vote of the
    same caller: the first is counted, the second is answered with "already
    voted", and the ledger is as the first vote left it. *)
Theorem vote_counted_once (ctx : Ctx.t) (cmd : string) (func : callable)
    (param : option Z) (p : Player.t) (cur : Song.t) (vc : VoiceClient.t)
    (pending : gset Z) :
  let voter := Member.id (Ctx.author ctx) in
  let n := len (Channel.members (VoiceClient.channel vc)) in
  let required := if n <? 5 then n - 1 else 3 in
  Player.current p = Some cur ->
  Player.voice p = Some vc ->
  bypass ctx cur vc = false ->
  Player._votes p !! cmd = Some pending ->
  voter ∉ pending ->
  Z.of_nat (size pending) + 1 < required ->
  (votes ctx cmd func param ;; votes ctx cmd func param) (Some p) =
  (Ok tt,
   Some (Player.set_votes (<[cmd := pending ∪ {[ voter ]}]> (Player._votes p)) p),
   [Send (Ctx.channel ctx)
      (capitalize cmd +:+ " vote added, currently at `"
       +:+ str (Z.of_nat (size pending) + 1) +:+ "/" +:+ str required +:+ "`");
    Send (Ctx.channel ctx) ("You have already voted to " +:+ cmd +:+ ".")]).
Proof.
  intros voter n required Hcur Hvoice Hby Hledger Hnew Hlt.
  assert (Hsize : Z.of_nat (size (pending ∪ {[ voter ]}))
                  = Z.of_nat (size pending) + 1)
    by (rewrite size_union by set_solver; rewrite size_singleton; lia).
  unfold bind at 1.
  rewrite (votes_run ctx cmd func param p cur vc Hcur Hvoice), Hby, Hledger.
  rewrite bool_decide_eq_false_2 by exact Hnew. cbv zeta.
  fold voter n required. rewrite Hsize.
  destruct (_ >=? _) eqn:E; [lia|].
  rewrite (votes_run ctx cmd func param _ cur vc) by assumption.
  rewrite Hby. cbn [Player._votes Player.set_votes]. rewrite lookup_insert_eq.
  rewrite bool_decide_eq_true_2 by (fold voter; set_solver). reflexivity.
Qed.

Lemma vote_counted_once_witness :
  let quartet := [human 1; human 2; human 3; robot 9] in
  let p := streaming quartet song_a [song_b] no_votes in
  let vote := votes (ctx_of (human 1)) "skip" (Nullary (emit PlayerSkip)) None in
  (vote ;; vote) (Some p) =
  (Ok tt,
   Some (Player.set_votes (<["skip" := ∅ ∪ {[ 1 ]}]> (Player._votes p)) p),
   [Send 5 "Skip vote added, currently at `1/3`";
    Send 5 "You have already voted to skip."]).
Proof.
  cbv zeta.
  refine (vote_counted_once (ctx_of (human 1)) "skip"
    (Nullary (emit PlayerSkip)) None
    (streaming [human 1; human 2; human 3; robot 9] song_a [song_b] no_votes)
    song_a (sink SinkPlaying [human 1; human 2; human 3; robot 9]) ∅
    _ _ _ _ _ _); concrete.
Defined.

(** X3.  Whoever passes the [is_dj] check without being the developer also
    passes the vote gate: the action runs at once and the gate leaves the
    ledger alone. *)
Theorem is_dj_bypasses_votes (ctx : Ctx.t) (cmd : string) (func : callable)
    (param : option Z) (p : Player.t) (cur : Song.t) (vc : VoiceClient.t) :
  Player.current p = Some cur ->
  Player.voice p = Some vc ->
  is_dj ctx = true ->
  Member.id (Ctx.author ctx) <> dev ->
  votes ctx cmd func param (Some p) = run_func func param (Some p).
Proof.
  intros Hcur Hvoice Hdj Hdev.
  rewrite (votes_run ctx cmd func param p cur vc Hcur Hvoice).
  assert (Hby : bypass ctx cur vc = true); [|rewrite Hby; reflexivity].
  unfold is_dj in Hdj. unfold bypass.
  destruct (Member.id (Ctx.author ctx) =? dev) eqn:E; [lia|].
  rewrite orb_false_r in Hdj.
  destruct (Member.manage_guild (Ctx.author ctx)); [rewrite !orb_true_r; reflexivity|].
  cbn [orb] in Hdj. rewrite Hdj. apply orb_true_r.
Qed.

Lemma is_dj_bypasses_votes_witness :
  let crowd := [moderator 1; human 2; human 3; human 4; human 5; robot 9] in
  let p := streaming crowd song_a [song_b] no_votes in
  votes (ctx_of (moderator 1)) "skip" (Nullary (emit PlayerSkip)) None (Some p)
  = (Ok tt, Some p, [PlayerSkip]).
Proof.
  cbv zeta.
  rewrite (is_dj_bypasses_votes (ctx_of (moderator 1)) "skip"
    (Nullary (emit PlayerSkip)) None
    (streaming [moderator 1; human 2; human 3; human 4; human 5; robot 9]
       song_a [song_b] no_votes)
    song_a
    (sink SinkPlaying [moderator 1; human 2; human 3; human 4; human 5; robot 9]));
  concrete.
Defined.

(** X4.  [remove 0]: the index is falsy, so [run_func] calls the one-argument
    coroutine [remove_song] without its argument.  For a caller the gate lets
    through, the command ends in [TypeError] and the queue is untouched. *)
Theorem remove_zero_raises (ctx : Ctx.t) (p : Player.t) (cur : Song.t)
    (vc : VoiceClient.t) :
  Player.current p = Some cur ->
  Player.voice p = Some vc ->
  Player.songs p <> [] ->
  bypass ctx cur vc = true ->
  invoke queue_remove ctx 0 (Some p) = (Raise TypeError, Some p, []).
Proof.
  intros Hcur Hvoice Hq Hby.
  rewrite invoke_unchecked by reflexivity.
  unfold queue_remove, callback. rewrite bind_get.
  destruct (len (Player.songs p) =? 0) eqn:E.
  - destruct (Player.songs p); [congruence | discriminate E].
  - rewrite (votes_run ctx "remove" _ _ p cur vc Hcur Hvoice), Hby.
    reflexivity.
Qed.

Lemma remove_zero_raises_witness :
  let p := streaming [moderator 1; human 2; robot 9] song_a [song_b] no_votes in
  invoke queue_remove (ctx_of (moderator 1)) 0 (Some p)
  = (Raise TypeError, Some p, []).
Proof.
  cbv zeta.
  refine (remove_zero_raises (ctx_of (moderator 1))
    (streaming [moderator 1; human 2; robot 9] song_a [song_b] no_votes)
    song_a (sink SinkPlaying [moderator 1; human 2; robot 9]) _ _ _ _);
    first [ discriminate | concrete ].
Defined.

(** X25.  [remove index] with [1 <= index <= len(queue)], for a caller the
    gate lets through: exactly the song at that 1-based position leaves the
    queue (the others keep their order), the queue is one shorter, and the
    reply names the removed title. *)
Theorem remove_in_range (ctx : Ctx.t) (index : Z) (p : Player.t) (cur : Song.t)
    (vc : VoiceClient.t) :
  Player.current p = Some cur ->
  Player.voice p = Some vc ->
  1 <= index <= len (Player.songs p) ->
  bypass ctx cur vc = true ->
  exists song,
    Player.songs p !! Z.to_nat (index - 1) = Some song
    /\ invoke queue_remove ctx index (Some p)
       = (Ok tt,
          Some (Player.set_songs
                  (delete (Z.to_nat (index - 1)) (Player.songs p)) p),
          [Send (Ctx.channel ctx) ("**🗑 Removed** `" +:+ Song.title song +:+ "`")])
    /\ Z.of_nat (length (delete (Z.to_nat (index - 1)) (Player.songs p)))
       = len (Player.songs p) - 1.
Proof.
  intros Hcur Hvoice Hidx Hby. unfold len in Hidx.
  destruct (lookup_lt_is_Some_2 (Player.songs p) (Z.to_nat (index - 1)))
    as [song Hsong]; [lia|].
  exists song. split; [exact Hsong|]. split.
  - rewrite invoke_unchecked by reflexivity.
    unfold queue_remove, callback. rewrite bind_get.
    destruct (len (Player.songs p) =? 0) eqn:E; [unfold len in E; lia|].
    rewrite (votes_run ctx "remove" _ _ p cur vc Hcur Hvoice), Hby.
    unfold run_func. destruct (index =? 0) eqn:E0; [lia|]. cbn [call1].
    unfold the_player. rewrite bind_assoc, bind_get. cbn [attr].
    rewrite bind_ret_l. unfold queue_at.
    destruct ((0 <=? index - 1) && (index - 1 <? len (Player.songs p))) eqn:Er;
      [|unfold len in Er; lia].
    rewrite Hsong, bind_ret_l, bind_put. reflexivity.
  - rewrite length_delete by (exists song; exact Hsong). unfold len. lia.
Qed.

Lemma remove_in_range_witness :
  let p := streaming [moderator 1; human 2; robot 9] song_a [song_b; song_c]
             no_votes in
  exists song,
    Player.songs p !! Z.to_nat (2 - 1) = Some song
    /\ invoke queue_remove (ctx_of (moderator 1)) 2 (Some p)
       = (Ok tt, Some (Player.set_songs (delete (Z.to_nat (2 - 1)) (Player.songs p)) p),
          [Send 5 ("**🗑 Removed** `" +:+ Song.title song +:+ "`")])
    /\ Z.of_nat (length (delete (Z.to_nat (2 - 1)) (Player.songs p)))
       = len (Player.songs p) - 1.
Proof.
  cbv zeta.
  refine (remove_in_range (ctx_of (moderator 1)) 2
    (streaming [moderator 1; human 2; robot 9] song_a [song_b; song_c] no_votes)
    song_a (sink SinkPlaying [moderator 1; human 2; robot 9]) _ _ _ _);
    first [ concrete | split; concrete ].
Defined.

(** ** Further properties of the commands *)

Lemma player_eta (p : Player.t) :
  {| Player.text_channel := Player.text_channel p;
     Player.voice := Player.voice p;
     Player.current := Player.current p;
     Player.songs := Player.songs p;
     Player.volume := Player.volume p;
     Player.loop := Player.loop p;
     Player.loop_queue := Player.loop_queue p;
     Player._notify := Player._notify p;
     Player._votes := Player._votes p;
     Player.destroyed := Player.destroyed p |} = p.
Proof. destruct p; reflexivity. Qed.

Section MoreCommandFacts.

Variable is_playing : Player.t -> bool.
Variable str_float : Q -> string.

(** X5.  [volume] changes nothing unless a non-zero percentage is given
    while a song plays: without an argument, with [0] (which therefore never
    mutes), or while nothing plays, the caller gets one message and the
    player is as before. *)
Theorem volume_query_keeps_player (ctx : Ctx.t) (v : option Z) (p : Player.t) :
  v = None \/ v = Some 0 \/ is_playing p = false ->
  exists text,
    invoke (volume is_playing str_float) ctx v (Some p)
    = (Ok tt, Some p, [Send (Ctx.channel ctx) text]).
Proof.
  intros H. rewrite invoke_unchecked by reflexivity.
  unfold volume, callback. rewrite bind_get.
  destruct v as [[|v|v]|]; try (eexists; reflexivity);
    destruct H as [H|[H|H]]; try discriminate H;
    rewrite H; eexists; reflexivity.
Qed.

(** X6.  [stop] by a caller who passes [is_dj] (with a voice client whenever
    a song plays): the queue is emptied and both loop flags are cleared; the
    sink is stopped but the connection, the current song, the volume and the
    pending votes stay, and the player is not destroyed by it. *)
Theorem stop_clears_queue (ctx : Ctx.t) (p : Player.t) :
  is_dj ctx = true ->
  (is_playing p = true -> Player.voice p <> None) ->
  exists p',
    invoke (stop is_playing) ctx tt (Some p)
    = (Ok tt, Some p',
       (if is_playing p then [VoiceStop] else [])
       ++ [Send (Ctx.channel ctx) "**⏹ Song stopped and queue cleared.**"])%list
    /\ Player.songs p' = []
    /\ Player.loop p' = false
    /\ Player.loop_queue p' = false
    /\ Player.voice p' = (if is_playing p
                          then VoiceClient.set_status SinkIdle <$> Player.voice p
                          else Player.voice p)
    /\ Player.current p' = Player.current p
    /\ Player.volume p' = Player.volume p
    /\ Player._votes p' = Player._votes p
    /\ Player.destroyed p' = Player.destroyed p.
Proof.
  intros Hdj Hvoice. rewrite invoke_is_dj_pass by (reflexivity || exact Hdj).
  unfold stop, callback. rewrite bind_get.
  destruct (is_playing p) eqn:Hp.
  - destruct (Player.voice p) as [vc|] eqn:Hv; [|exfalso; apply Hvoice; reflexivity].
    eexists. split; [reflexivity|]. cbn. repeat split.
  - eexists. split; [reflexivity|]. cbn. repeat split.
Qed.

(** X7.  [notify] is a toggle: two calls in a row restore the player, and
    the two messages say the opposite of each other. *)
Theorem notify_twice (ctx : Ctx.t) (p : Player.t) :
  let on := "**:bell: Now playing notifications enabled**" in
  let off := "**:no_bell: Now playing notifications disabled**" in
  (invoke notify ctx tt ;; invoke notify ctx tt) (Some p)
  = (Ok tt, Some p,
     if Player._notify p
     then [Send (Ctx.channel ctx) off; Send (Ctx.channel ctx) on]
     else [Send (Ctx.channel ctx) on; Send (Ctx.channel ctx) off]).
Proof.
  cbv zeta. rewrite !invoke_unchecked by reflexivity.
  unfold notify, callback, bind, get, put, the_player, attr, ret, send, emit.
  cbn. destruct (Player._notify p) eqn:E; cbn;
    rewrite <- E, player_eta; reflexivity.
Qed.

End MoreCommandFacts.

Lemma volume_query_keeps_player_witness :
  let p := streaming [human 1; robot 9] song_a [song_b] no_votes in
  exists text,
    invoke (volume has_song (fun _ => "50.0")) (ctx_of (human 1)) (Some 0) (Some p)
    = (Ok tt, Some p, [Send 5 text]).
Proof.
  cbv zeta.
  exact (volume_query_keeps_player has_song (fun _ => "50.0") (ctx_of (human 1))
           (Some 0) _ (or_intror (or_introl eq_refl))).
Defined.

Lemma stop_clears_queue_witness :
  let p := Player.set_loop_queue true
             (streaming [moderator 1; robot 9] song_a [song_b; song_c] no_votes) in
  exists p',
    final (invoke (stop has_song) (ctx_of (moderator 1)) tt (Some p)) = Some p'
    /\ Player.songs p' = [] /\ Player.loop_queue p' = false.
Proof.
  cbv zeta.
  destruct (stop_clears_queue has_song (ctx_of (moderator 1))
              (Player.set_loop_queue true
                 (streaming [moderator 1; robot 9] song_a [song_b; song_c] no_votes))
              eq_refl ltac:(discriminate))
    as (p' & Hrun & Hq & _ & Hlq & _).
  exists p'. rewrite Hrun. auto.
Defined.

(** ** [skipto] *)

Lemma set_songs_id (p : Player.t) : Player.set_songs (Player.songs p) p = p.
Proof. destruct p; reflexivity. Qed.

Lemma skip_ahead_run (k : nat) : forall p : Player.t,
  (k <= length (Player.songs p))%nat ->
  skip_ahead k (Some p) = (Ok true, Some (Player.set_songs (skipped k p) p), []).
Proof.
  induction k as [|k IH]; intros p Hk.
  - unfold skipped. cbn. destruct (Player.loop_queue p);
      rewrite ?drop_0, ?take_0, ?app_nil_r, set_songs_id; reflexivity.
  - destruct (Player.songs p) as [|x q] eqn:Hq; [cbn in Hk; lia|].
    cbn in Hk. cbn [skip_ahead]. unfold songs_get, the_player.
    rewrite !bind_assoc, bind_get. cbn [attr]. rewrite bind_ret_l, Hq.
    rewrite bind_assoc, bind_put, bind_ret_l.
    rewrite bind_assoc, bind_get. cbn [attr]. rewrite bind_ret_l.
    cbn [Player.loop_queue Player.set_songs].
    destruct (Player.loop_queue p) eqn:Hlq.
    + unfold update, the_player. rewrite !bind_assoc, bind_get. cbn [attr].
      rewrite bind_ret_l, bind_put.
      cbn [Player.songs Player.set_songs].
      rewrite IH by (cbn; rewrite length_app; cbn; lia).
      unfold skipped. cbn. rewrite Hlq, Hq. cbn.
      rewrite drop_app_le, take_app_le by lia.
      rewrite <- app_assoc. reflexivity.
    + rewrite bind_ret_l. rewrite IH by (cbn; lia).
      unfold skipped. cbn. rewrite Hlq, Hq. reflexivity.
Qed.

(** X8.  [skipto position] by a caller who passes [is_dj], with
    [position] at most the queue length: the loop never waits on an empty
    queue; the [position - 1] songs ahead are dropped, or, when the queue is
    looped, moved to the tail in order (so nothing is lost and the length is
    kept); then the current song is skipped.  A position below 1 skips the
    current song only. *)
Theorem skipto_run (ctx : Ctx.t) (position : Z) (p : Player.t) :
  let k := Z.to_nat (position - 1) in
  is_dj ctx = true ->
  position <= len (Player.songs p) ->
  invoke skipto ctx position (Some p)
  = (Ok tt, Some (Player.skip (Player.set_songs (skipped k p) p)),
     [PlayerSkip;
      Send (Ctx.channel ctx)
        ("Skipped to song at position `" +:+ str position +:+ "`")])
  /\ (Player.loop_queue p = true ->
      skipped k p ≡ₚ Player.songs p
      /\ length (skipped k p) = length (Player.songs p))
  /\ (1 <= position -> skipped k p !! 0%nat = Player.songs p !! k).
Proof.
  intros k Hdj Hpos. unfold len in Hpos.
  assert (Hk : (k <= length (Player.songs p))%nat) by (unfold k; lia).
  split; [|split].
  - rewrite invoke_is_dj_pass by (reflexivity || exact Hdj).
    unfold skipto, callback. rewrite bind_get.
    destruct (len (Player.songs p) <? position) eqn:E; [unfold len in E; lia|].
    fold k. rewrite (bind_silent _ _ _ _ _ (skip_ahead_run k p Hk)).
    rewrite bind_emit. unfold update, the_player.
    rewrite !bind_assoc, bind_get. cbn [attr]. rewrite bind_ret_l, bind_put.
    reflexivity.
  - intros Hlq. unfold skipped. rewrite Hlq. split.
    + rewrite Permutation_app_comm, take_drop. reflexivity.
    + rewrite length_app, length_drop, length_take. lia.
  - intros H1. unfold skipped.
    assert (Hlt : (k < length (Player.songs p))%nat) by (unfold k; lia).
    destruct (Player.loop_queue p).
    + rewrite lookup_app_l by (rewrite length_drop; lia).
      rewrite lookup_drop. f_equal. lia.
    + rewrite lookup_drop. f_equal. lia.
Qed.

Lemma skipto_run_witness :
  let p := Player.set_loop_queue true
             (streaming [moderator 1; robot 9] song_a [song_a; song_b; song_c]
                no_votes) in
  final (invoke skipto (ctx_of (moderator 1)) 3 (Some p))
  = Some (Player.skip (Player.set_songs [song_c; song_a; song_b] p)).
Proof.
  cbv zeta.
  destruct (skipto_run (ctx_of (moderator 1)) 3
              (Player.set_loop_queue true
                 (streaming [moderator 1; robot 9] song_a
                    [song_a; song_b; song_c] no_votes))
              eq_refl ltac:(vm_compute; discriminate)) as [Hrun _].
  rewrite Hrun. reflexivity.
Defined.

(** X9.  [skipto] beyond the end of the queue tells the caller so and
    changes nothing. *)
Theorem skipto_too_far (ctx : Ctx.t) (position : Z) (p : Player.t) :
  is_dj ctx = true ->
  len (Player.songs p) < position ->
  invoke skipto ctx position (Some p)
  = (Ok tt, Some p,
     [Send (Ctx.channel ctx)
        ("The queue has less than " +:+ str position +:+ " song(s).")]).
Proof.
  intros Hdj Hpos. rewrite invoke_is_dj_pass by (reflexivity || exact Hdj).
  unfold skipto, callback. rewrite bind_get.
  destruct (len (Player.songs p) <? position) eqn:E; [reflexivity|lia].
Qed.

Lemma skipto_too_far_witness :
  let p := streaming [moderator 1; robot 9] song_a [song_b] no_votes in
  invoke skipto (ctx_of (moderator 1)) 2 (Some p)
  = (Ok tt, Some p, [Send 5 "The queue has less than 2 song(s)."]).
Proof.
  cbv zeta.
  exact (skipto_too_far (ctx_of (moderator 1)) 2
           (streaming [moderator 1; robot 9] song_a [song_b] no_votes)
           eq_refl eq_refl).
Defined.

(** ** Saving the queue, leaving, and the idle cases of the listener *)

Section SaveQueueFacts.

Variable paste_key : string -> result string.

Lemma save_queue_equation (ctx : Ctx.t) (p : Player.t) (cur : Song.t) :
  let text := Py.join nl (Song.url cur :: map Song.url (Player.songs p)) in
  Player.songs p <> [] ->
  Player.current p = Some cur ->
  invoke (_save_queue paste_key) ctx tt (Some p)
  = match paste_key text with
    | Ok key =>
        (Ok tt, Some p,
         [HttpPost "https://mystb.in/documents" text;
          Send (Ctx.channel ctx)
            ("**Current queue: " +:+ ("https://mystb.in" +:+ "/" +:+ key)
             +:+ "**")])
    | Raise e =>
        (Raise e, Some p, [HttpPost "https://mystb.in/documents" text])
    end.
Proof.
  intros text Hq Hcur. rewrite invoke_unchecked by reflexivity.
  unfold _save_queue, callback. rewrite bind_get.
  destruct (len (Player.songs p) =? 0) eqn:E.
  { destruct (Player.songs p); [congruence | discriminate E]. }
  rewrite Hcur. cbn [attr]. rewrite bind_ret_l. unfold post.
  rewrite bind_assoc, bind_emit. fold text.
  destruct (paste_key text) as [key|e]; reflexivity.
Qed.

(** X10.  [queue save] with a non-empty queue posts the URL of the current
    song followed by the URLs of the queue, one per line, and answers with the
    link.  The player is not changed, and the reply "Sorry, I couldn't save
    your queue." is never sent: a failed post surfaces as the exception. *)
Theorem save_queue_run (ctx : Ctx.t) (p : Player.t) (cur : Song.t) :
  let text := Py.join nl (Song.url cur :: map Song.url (Player.songs p)) in
  Player.songs p <> [] ->
  Player.current p = Some cur ->
  invoke (_save_queue paste_key) ctx tt (Some p)
  = match paste_key text with
    | Ok key =>
        (Ok tt, Some p,
         [HttpPost "https://mystb.in/documents" text;
          Send (Ctx.channel ctx)
            ("**Current queue: " +:+ ("https://mystb.in" +:+ "/" +:+ key)
             +:+ "**")])
    | Raise e =>
        (Raise e, Some p, [HttpPost "https://mystb.in/documents" text])
    end.
Proof. exact (save_queue_equation ctx p cur). Qed.

(** X11.  [queue save] never posts anything when the queue is empty or the
    guild has no player, even while a song is playing. *)
Theorem save_queue_empty (ctx : Ctx.t) (s : option Player.t) :
  s = None \/ (exists p, s = Some p /\ Player.songs p = []) ->
  exists text,
    invoke (_save_queue paste_key) ctx tt s
    = (Ok tt, s, [Send (Ctx.channel ctx) text]).
Proof.
  intros [->|(p & -> & Hq)]; rewrite invoke_unchecked by reflexivity;
    unfold _save_queue, callback; rewrite bind_get.
  - eexists. reflexivity.
  - rewrite Hq. eexists. reflexivity.
Qed.

End SaveQueueFacts.

Lemma save_queue_run_witness :
  let p := streaming [human 1; robot 9] song_a [song_b; song_c] no_votes in
  invoke (_save_queue paste_ok) (ctx_of (human 1)) tt (Some p)
  = (Ok tt, Some p,
     [HttpPost "https://mystb.in/documents"
        (Py.join nl ["https://youtu.be/a"; "https://youtu.be/b";
                     "https://youtu.be/c"]);
      Send 5 "**Current queue: https://mystb.in/abc**"]).
Proof.
  cbv zeta.
  exact (save_queue_run paste_ok (ctx_of (human 1))
           (streaming [human 1; robot 9] song_a [song_b; song_c] no_votes)
           song_a ltac:(discriminate) eq_refl).
Defined.

Lemma save_queue_empty_witness :
  let p := streaming [human 1; robot 9] song_a [] no_votes in
  exists text,
    invoke (_save_queue paste_ok) (ctx_of (human 1)) tt (Some p)
    = (Ok tt, Some p, [Send 5 text]).
Proof.
  cbv zeta.
  apply (save_queue_empty paste_ok (ctx_of (human 1))).
  right. eexists. split; reflexivity.
Defined.

Section LeaveFacts.

Variable tick : bool -> string -> string.

(** X12.  [leave] by a caller who passes [is_dj], for a guild whose player
    has a voice client (its own, or the guild's as a fallback): the player
    object is stopped and the guild is removed from the registry, so the
    guild has no player afterwards; other guilds keep theirs. *)
Theorem leave_unregisters (ctx : Ctx.t) (voice_client : option VoiceClient.t)
    (b : Bot.t) (r : N) (p : Player.t) (vc : VoiceClient.t) :
  let p' := match Player.voice p with
            | Some _ => p
            | None => Player.set_voice (Some vc) p
            end in
  let b' := {| Bot.objects := <[r := Player.stop p']> (Bot.objects b);
               Bot.players := delete (Ctx.guild_id ctx) (Bot.players b) |} in
  is_dj ctx = true ->
  Bot.players b !! Ctx.guild_id ctx = Some r ->
  Bot.objects b !! r = Some p ->
  (Player.voice p = None -> voice_client = Some vc) ->
  leave tick ctx voice_client b
  = (Ok tt, b',
     [PlayerStop;
      Send (Ctx.channel ctx) (tick true "Disconnected and cleared queue.")])
  /\ Bot.player_of b' (Ctx.guild_id ctx) = None
  /\ Player.state_of (Player.stop p') = Player.Destroyed
  /\ (forall g, g <> Ctx.guild_id ctx -> Bot.players b' !! g = Bot.players b !! g).
Proof.
  intros p' b' Hdj Hreg Hobj Hvc. split; [|split; [|split]].
  - unfold leave. rewrite Hdj. cbn [negb]. rewrite bind_get, Hreg.
    rewrite (bind_silent _ _ _ _ _ (deref_run r b p Hobj)).
    unfold b', p'. destruct (Player.voice p) as [v|] eqn:Hv.
    + rewrite bind_emit.
      rewrite (bind_silent _ _ _ _ _ (modify_run r Player.stop b p Hobj)).
      erewrite (bind_silent (del_player _))
        by (eapply del_player_run; cbn; exact Hreg).
      reflexivity.
    + rewrite (Hvc eq_refl).
      rewrite (bind_silent _ _ _ _ _
                 (modify_run r (Player.set_voice (Some vc)) b p Hobj)).
      rewrite bind_emit.
      erewrite (bind_silent (modify r Player.stop))
        by (apply modify_run; cbn; apply lookup_insert_eq).
      erewrite (bind_silent (del_player _))
        by (eapply del_player_run; cbn; exact Hreg).
      cbn. rewrite insert_insert_eq. reflexivity.
  - unfold Bot.player_of, b'. cbn. rewrite lookup_delete_eq. reflexivity.
  - reflexivity.
  - intros g Hg. unfold b'. cbn. apply lookup_delete_ne. congruence.
Qed.

(** X13.  [leave] refuses a caller who fails [is_dj], and does nothing but
    answer when the guild has no player, or when neither the player nor the
    guild has a voice client: the registry is untouched. *)
Theorem leave_declines (ctx : Ctx.t) (voice_client : option VoiceClient.t)
    (b : Bot.t) :
  (is_dj ctx = false -> leave tick ctx voice_client b = (Raise CheckFailure, b, []))
  /\ (is_dj ctx = true -> Bot.players b !! Ctx.guild_id ctx = None ->
      leave tick ctx voice_client b
      = (Ok tt, b, [Send (Ctx.channel ctx) "This server doesn't have a player."]))
  /\ (forall r p,
        is_dj ctx = true -> Bot.players b !! Ctx.guild_id ctx = Some r ->
        Bot.objects b !! r = Some p -> Player.voice p = None ->
        voice_client = None ->
        leave tick ctx voice_client b
        = (Ok tt, b,
           [Send (Ctx.channel ctx) "Not connected to any voice channel."])).
Proof.
  split; [|split].
  - intros Hdj. unfold leave. rewrite Hdj. reflexivity.
  - intros Hdj Hreg. unfold leave. rewrite Hdj. cbn [negb].
    rewrite bind_get, Hreg. reflexivity.
  - intros r p Hdj Hreg Hobj Hv ->. unfold leave. rewrite Hdj. cbn [negb].
    rewrite bind_get, Hreg.
    rewrite (bind_silent _ _ _ _ _ (deref_run r b p Hobj)), Hv. reflexivity.
Qed.

End LeaveFacts.

Lemma leave_unregisters_witness :
  let p := streaming [moderator 1; robot 9] song_a [song_b] no_votes in
  Bot.player_of
    (final (leave (fun _ text => text) (ctx_of (moderator 1)) None (bot_with p)))
    1 = None.
Proof.
  cbv zeta.
  destruct (leave_unregisters (fun _ text => text) (ctx_of (moderator 1)) None
              (bot_with (streaming [moderator 1; robot 9] song_a [song_b] no_votes))
              0%N (streaming [moderator 1; robot 9] song_a [song_b] no_votes)
              (sink SinkIdle []) eq_refl eq_refl eq_refl
              ltac:(discriminate)) as (Hrun & Hgone & _).
  rewrite Hrun. exact Hgone.
Defined.

Lemma leave_declines_witness :
  let b := bot_with (streaming [human 1; robot 9] song_a [song_b] no_votes) in
  leave (fun _ text => text) (ctx_of (human 1)) None b = (Raise CheckFailure, b, []).
Proof.
  cbv zeta.
  exact (proj1 (leave_declines (fun _ text => text) (ctx_of (human 1)) None _)
           eq_refl).
Defined.

(** X14.  The listener does nothing at all (no pause, no wait, no message,
    no state change) when the member is a bot, when the guild has no player,
    when the player has no voice client, or when a person is still in the
    player's channel. *)
Theorem on_voice_leave_ignores (paste_key : string -> result string)
    (guild : Z) (member : Member.t) (before after : option Channel.t)
    (updates : list voice_update) (b : Bot.t) :
  Member.bot member = true
  \/ Bot.players b !! guild = None
  \/ (exists r p, Bot.players b !! guild = Some r /\ Bot.objects b !! r = Some p
        /\ (Player.voice p = None
            \/ exists vc, Player.voice p = Some vc
                 /\ non_bots (Channel.members (VoiceClient.channel vc)) <> [])) ->
  on_voice_leave paste_key guild member before after updates b = (Ok tt, b, []).
Proof.
  intros H. unfold on_voice_leave.
  destruct (Member.bot member); [reflexivity|].
  destruct H as [H|[H|(r & p & Hreg & Hobj & H)]]; [discriminate H| |].
  - rewrite bind_get, H. reflexivity.
  - rewrite bind_get, Hreg.
    rewrite (bind_silent _ _ _ _ _ (deref_run r b p Hobj)).
    destruct H as [Hv|(vc & Hv & Hne)]; rewrite Hv; [reflexivity|].
    rewrite (len_positive _ Hne). reflexivity.
Qed.

Lemma on_voice_leave_ignores_witness :
  let b := bot_with (streaming [human 2; robot 9] song_a [song_b] no_votes) in
  on_voice_leave paste_ok 1 (human 1) (Some (room [human 2; robot 9])) None [] b
  = (Ok tt, b, []).
Proof.
  cbv zeta.
  apply (on_voice_leave_ignores paste_ok 1 (human 1)).
  right. right. exists 0%N. eexists. split; [reflexivity|].
  split; [reflexivity|]. right. eexists. split; [reflexivity|]. discriminate.
Defined.

(** ** Fetching bins and playlists *)

Lemma bind_run {S A B} (m : M S A) (k : A -> M S B) s a s' out :
  m s = (Ok a, s', out) ->
  bind m k s = (outcome (k a s'), final (k a s'), (out ++ trace (k a s'))%list).
Proof.
  intros H. unfold bind. rewrite H. destruct (k a s') as [[o s''] out'].
  reflexivity.
Qed.

Lemma songs_put_run (song : Song.t) (p : Player.t) :
  songs_put song (Some p)
  = (Ok tt, Some (Player.set_songs (Player.songs p ++ [song])%list p), []).
Proof. reflexivity. Qed.

Section FetchFacts.

Variable get_song : string -> reply (option Song.t).
Variable get_playlist : string -> reply (list (option Song.t) * Z).
Variable YT_URLS_findall : string -> list string.
Variable splitlines : string -> list string.
Variable urlparse : string -> string * string * string.
Variable http_get : string -> reply (Z * string).
Variable confirm : string -> bool.

(** The address [get_haste] requests for [url]. *)
Let raw (url : string) : string :=
  let '(scheme, netloc, path) := urlparse url in
  scheme +:+ "://" +:+ netloc +:+ ("/raw" +:+ path).

(** X15.  [get_haste] makes exactly one request, to the [/raw] form of the
    address, and never changes the player.  It returns a body exactly when
    the answer comes within 10 seconds with status 200; a later answer is a
    [TimeoutError], any other status a [BinFetchingError] carrying it. *)
Theorem get_haste_outcomes (url : string) (s : option Player.t) :
  let r := get_haste urlparse http_get url s in
  final r = s
  /\ trace r = [HttpGet (raw url)]
  /\ (forall body,
        outcome r = Ok body <->
        elapsed (http_get (raw url)) < 10
        /\ answer (http_get (raw url)) = Ok (200, body))
  /\ (10 <= elapsed (http_get (raw url)) -> outcome r = Raise TimeoutError)
  /\ (forall status body,
        elapsed (http_get (raw url)) < 10 ->
        answer (http_get (raw url)) = Ok (status, body) -> status <> 200 ->
        outcome r = Raise (BinFetchingError status)).
Proof.
  cbv zeta. unfold get_haste, raw.
  destruct (urlparse url) as [[scheme netloc] path].
  set (u := scheme +:+ "://" +:+ netloc +:+ ("/raw" +:+ path)).
  rewrite bind_emit. cbn [final outcome trace fst snd].
  destruct (elapsed (http_get u) <? 10) eqn:Et;
    [destruct (answer (http_get u)) as [[status body]|e] eqn:Ea;
       [destruct (status =? 200) eqn:Es;
          [apply Z.eqb_eq in Es | apply Z.eqb_neq in Es]|]|];
    cbn; repeat split; intros;
    repeat match goal with H : _ /\ _ |- _ => destruct H end;
    try congruence; try lia.
Qed.

(** X16.  The loop of [hastebin_playlist]: when every line is answered with a
    song, [None] or a [YTDLError], however long each answer takes, the loop
    completes, the queue grows by exactly the resolved songs in the order of
    the lines, and each [YTDLError] costs one message and nothing else. *)
Theorem fetch_videos_appends (ctx : Ctx.t) (videos : list string) :
  forall p : Player.t,
  (forall video e, In video videos -> answer (get_song video) = Raise e ->
                   exists msg, e = YTDLError msg) ->
  fetch_videos get_song ctx videos (Some p)
  = (Ok tt,
     Some (Player.set_songs (Player.songs p ++ resolved get_song videos)%list p),
     complaints get_song ctx videos).
Proof.
  unfold resolved, complaints.
  induction videos as [|video rest IH]; intros p Hok.
  - cbn. rewrite app_nil_r, set_songs_id. reflexivity.
  - assert (Hrest : forall v e, In v rest -> answer (get_song v) = Raise e ->
                      exists msg, e = YTDLError msg)
      by (intros v e Hin; apply Hok; right; exact Hin).
    cbn [fetch_videos omap list_omap].
    destruct (answer (get_song video)) as [[song|]|e] eqn:Ea.
    + erewrite bind_silent
        by (unfold try_except, await; rewrite Ea; cbn; reflexivity).
      rewrite (IH _ Hrest). cbn. rewrite <- app_assoc. reflexivity.
    + erewrite bind_silent
        by (unfold try_except, await; rewrite Ea; cbn; reflexivity).
      rewrite (IH _ Hrest). reflexivity.
    + destruct (Hok video e (or_introl eq_refl) Ea) as [msg ->].
      erewrite bind_run
        by (unfold try_except, await; rewrite Ea; cbn; reflexivity).
      rewrite (IH _ Hrest). reflexivity.
Qed.

(** X17.  [fetch_yt_playlist] on a playlist the resolver returns: the
    entries that are songs are appended to the queue in order and the [None]
    entries are skipped; on a [YTDLError] the queue is unchanged and the
    error is printed and reported. *)
Theorem fetch_yt_playlist_appends (ctx : Ctx.t) (url : string) (p : Player.t) :
  let announce :=
    Send (Ctx.channel ctx)
      ("**<:youtube:667536366447493120> Fetching YouTube playlist** `"
       +:+ url +:+ "`" +:+ nl
       +:+ "This make take awhile depending on playlist size.") in
  (forall playlist failed,
     answer (get_playlist url) = Ok (playlist, failed) ->
     fetch_yt_playlist get_playlist ctx url (Some p)
     = (Ok tt,
        Some (Player.set_songs (Player.songs p ++ omap id playlist)%list p),
        [announce; SendEmbed (Ctx.channel ctx) "**📄 Enqueued:**"]))
  /\ (forall msg,
        answer (get_playlist url) = Raise (YTDLError msg) ->
        fetch_yt_playlist get_playlist ctx url (Some p)
        = (Ok tt, Some p,
           [announce; Print msg;
            Send (Ctx.channel ctx)
              ("An error occurred while processing this request: ```py"
               +:+ nl +:+ msg +:+ nl +:+ "```")])).
Proof.
  cbv zeta. split.
  - intros playlist failed Ha. unfold fetch_yt_playlist, send.
    rewrite bind_emit. unfold try_except, await. rewrite Ha.
    cbn -[enqueue_playlist].
    assert (Hloop : forall l q,
              enqueue_playlist l (Some q)
              = (Ok tt, Some (Player.set_songs (Player.songs q ++ omap id l)%list q), [])).
    { induction l as [|[song|] l IH]; intros q.
      - cbn. rewrite app_nil_r, set_songs_id. reflexivity.
      - cbn [enqueue_playlist]. unfold songs_put, update, the_player.
        rewrite !bind_assoc, bind_get. cbn [attr]. rewrite bind_ret_l, bind_put.
        rewrite IH. cbn. rewrite <- app_assoc. reflexivity.
      - cbn [enqueue_playlist]. rewrite IH. reflexivity. }
    rewrite (bind_silent _ _ _ _ _ (Hloop playlist p)). reflexivity.
  - intros msg Ha. unfold fetch_yt_playlist, send.
    rewrite bind_emit. unfold try_except, await. rewrite Ha. reflexivity.
Qed.

End FetchFacts.

(** A bin answering [404] after two seconds. *)
Lemma get_haste_outcomes_witness :
  outcome (get_haste (fun _ => ("https", "mystb.in", "/abc"))
             (fun _ => after 2 (404, "gone")) "https://mystb.in/abc" None)
  = Raise (BinFetchingError 404).
Proof.
  exact (proj2 (proj2 (proj2 (proj2
           (get_haste_outcomes (fun _ => ("https", "mystb.in", "/abc"))
              (fun _ => after 2 (404, "gone")) "https://mystb.in/abc" None))))
           404 "gone" eq_refl eq_refl ltac:(discriminate)).
Defined.

(** Three lines: the first resolves after 200 seconds, the second is refused
    by the resolver, the third resolves to nothing. *)
Lemma fetch_videos_appends_witness :
  let lookup video :=
    if String.eqb video "b" then after 200 (Some song_b)
    else if String.eqb video "x"
         then {| elapsed := 1; answer := Raise (YTDLError "private video") |}
         else after 1 None in
  let p := streaming [human 1; robot 9] song_a [song_c] no_votes in
  fetch_videos lookup (ctx_of (human 1)) ["b"; "x"; "?"] (Some p)
  = (Ok tt, Some (Player.set_songs [song_c; song_b] p),
     [Send 5 "An error occurred while processing this request: ```py private video```"]).
Proof.
  cbv zeta.
  refine (fetch_videos_appends
            (fun video =>
               if String.eqb video "b" then after 200 (Some song_b)
               else if String.eqb video "x"
                    then {| elapsed := 1; answer := Raise (YTDLError "private video") |}
                    else after 1 None)
            (ctx_of (human 1)) ["b"; "x"; "?"]
            (streaming [human 1; robot 9] song_a [song_c] no_votes) _).
  intros video e [<-|[<-|[<-|[]]]] H; cbn in H; try discriminate H.
  injection H as <-. eexists. reflexivity.
Defined.

Lemma fetch_yt_playlist_appends_witness :
  let p := streaming [human 1; robot 9] song_a [song_c] no_votes in
  final (fetch_yt_playlist (fun _ => after 5 ([Some song_b; None; Some song_a], 1))
           (ctx_of (human 1)) "https://youtube.com/playlist?list=PL1" (Some p))
  = Some (Player.set_songs [song_c; song_b; song_a] p).
Proof.
  cbv zeta.
  rewrite (proj1 (fetch_yt_playlist_appends
                    (fun _ => after 5 ([Some song_b; None; Some song_a], 1))
                    (ctx_of (human 1)) "https://youtube.com/playlist?list=PL1"
                    (streaming [human 1; robot 9] song_a [song_c] no_votes))
             _ _ eq_refl).
  reflexivity.
Defined.

(** ** Bins that cannot be used, [play] and [join] *)

Section BinFacts.

Variable get_song : string -> reply (option Song.t).
Variable YT_URLS_findall : string -> list string.
Variable splitlines : string -> list string.
Variable urlparse : string -> string * string * string.
Variable http_get : string -> reply (Z * string).
Variable confirm : string -> bool.

Let raw (url : string) : string :=
  let '(scheme, netloc, path) := urlparse url in
  scheme +:+ "://" +:+ netloc +:+ ("/raw" +:+ path).

(** X18.  [hastebin_playlist] enqueues nothing and leaves the player as it
    was when the bin does not answer within 10 seconds, the request fails,
    the status is not 200, the body is empty or one of the two error bodies,
    or the bin has more than 50 lines and the user does not confirm. *)
Theorem hastebin_playlist_refuses (ctx : Ctx.t) (search : string)
    (s : option Player.t) :
  let r := http_get (raw search) in
  10 <= elapsed r
  \/ (exists e, answer r = Raise e)
  \/ (exists status body,
        answer r = Ok (status, body)
        /\ (status <> 200
            \/ body = ""
            \/ body = document_not_found
            \/ body = "404: Not Found"
            \/ (50 < len (splitlines body)
                /\ confirm "I found more than 50 lines in this hastebin. Continue?"
                   = false))) ->
  final (hastebin_playlist get_song YT_URLS_findall splitlines urlparse http_get
           confirm ctx search s) = s.
Proof.
  cbv zeta. unfold hastebin_playlist, get_haste, raw.
  destruct (urlparse search) as [[scheme netloc] path].
  set (u := scheme +:+ "://" +:+ netloc +:+ ("/raw" +:+ path)).
  intros H. rewrite bind_assoc, bind_emit. cbn [final fst snd].
  destruct (elapsed (http_get u) <? 10) eqn:Et;
    [|reflexivity].
  destruct H as [H|[[e H]|(status & body & Ha & H)]]; [lia| |].
  { rewrite H. reflexivity. }
  rewrite Ha. destruct (status =? 200) eqn:Es; cbn [negb]; [|reflexivity].
  rewrite bind_ret_l.
  destruct (String.eqb body "" || String.eqb body document_not_found) eqn:E1;
    [reflexivity|].
  destruct (String.eqb body "404: Not Found") eqn:E2; [reflexivity|].
  apply orb_false_elim in E1 as [E1a E1b].
  apply String.eqb_neq in E1a, E1b, E2.
  destruct H as [H|[H|[H|[H|[Hlen Hno]]]]]; try congruence; [lia|].
  rewrite Hno. destruct (len (splitlines body) >? 50) eqn:E50; [|lia].
  cbn [negb andb].
  destruct (len (YT_URLS_findall body) =? 0); reflexivity.
Qed.

End BinFacts.

Lemma hastebin_playlist_refuses_witness :
  let p := streaming [human 1; robot 9] song_a [song_c] no_votes in
  final (hastebin_playlist (fun _ => after 1 (Some song_b)) (fun _ => [])
           (fun _ => ["x"]) (fun _ => ("https", "mystb.in", "/abc"))
           (fun _ => after 2 (200, "404: Not Found")) (fun _ => true)
           (ctx_of (human 1)) "https://mystb.in/abc" (Some p))
  = Some p.
Proof.
  cbv zeta.
  apply (hastebin_playlist_refuses (fun _ => after 1 (Some song_b)) (fun _ => [])
           (fun _ => ["x"]) (fun _ => ("https", "mystb.in", "/abc"))
           (fun _ => after 2 (200, "404: Not Found")) (fun _ => true)).
  right. right. exists 200, "404: Not Found". split; [reflexivity|].
  right. right. right. left. reflexivity.
Defined.

(** ** The hook, [play] and [join] *)

(** The hook lets a caller through who is in a voice channel, when the bot
    has no voice client in the guild or its client is in that channel. *)
Lemma ensure_player_passes (prefix : string) (voice_client : option VoiceClient.t)
    (ctx : Ctx.t) (channel : Channel.t) (s : option Player.t) :
  Ctx.author_voice ctx = Some channel ->
  (forall client, voice_client = Some client ->
     Channel.id (VoiceClient.channel client) = Channel.id channel) ->
  ensure_player prefix voice_client ctx s = (Ok tt, s, []).
Proof.
  intros Hav Hsame. unfold ensure_player. rewrite Hav.
  destruct voice_client as [client|]; [|reflexivity].
  unfold Channel.eqb. rewrite (Hsame client eq_refl), Z.eqb_refl. reflexivity.
Qed.

Lemma invoke_hooked_passes {A} (hook : Ctx.t -> MC unit) (c : command A)
    (ctx : Ctx.t) (a : A) (s : option Player.t) :
  checks c = [] -> hook ctx s = (Ok tt, s, []) ->
  invoke_hooked hook c ctx a s = callback c ctx a s.
Proof.
  intros Hc Hh. unfold invoke_hooked. rewrite Hc. cbn [forallb].
  exact (bind_silent (hook ctx) (fun _ => callback c ctx a) s tt s Hh).
Qed.

Section PlayFacts.

Variable is_playing : Player.t -> bool.
Variable str_song : Song.t -> string.
Variable new_player : Ctx.t -> Player.t.
Variable channel_name : Z -> string.
Variable connect : Channel.t -> result VoiceClient.t.
Variable get_song : string -> reply (option Song.t).
Variable get_song_from_db : string -> reply (option Song.t).
Variable get_playlist : string -> reply (list (option Song.t) * Z).
Variable URLS_match : string -> bool.
Variable YT_URLS_match : string -> bool.
Variable type_regex_match : string -> option (string * string).
Variable prefix : string.
Variable voice_client : option VoiceClient.t.

Let the_play_song :=
  play_song is_playing str_song new_player channel_name connect get_song
    get_song_from_db get_playlist URLS_match YT_URLS_match.

Let the_play :=
  play is_playing str_song new_player channel_name connect get_song
    get_song_from_db get_playlist URLS_match YT_URLS_match type_regex_match.

(** The [play] command as the framework runs it. *)
Let invoke_play := invoke_hooked (ensure_player prefix voice_client) the_play.

(** X19.  [play], for a caller the hook lets through (in a voice channel,
    with the bot's voice client absent or in that channel), with a search
    text that carries no recognised source prefix (no [word:] prefix at all,
    or a word other than youtube, yt, database, db, bin in any letter case):
    [play_song] is handed the location [None], and for a connected player it
    fails with [AttributeError] on [location_type.bin] before anything is
    sent, resolved or enqueued. *)
Theorem play_without_prefix_fails (ctx : Ctx.t) (search : string)
    (p : Player.t) (vc : VoiceClient.t) (channel : Channel.t) :
  Ctx.author_voice ctx = Some channel ->
  (forall client, voice_client = Some client ->
     Channel.id (VoiceClient.channel client) = Channel.id channel) ->
  Player.voice p = Some vc ->
  search <> "" ->
  type_regex_match search = None
  \/ (exists their_type query,
        type_regex_match search = Some (their_type, query)
        /\ str_in (lower their_type) valid_types = false) ->
  the_play_song ctx None search (Some p) = (Raise AttributeError, Some p, [])
  /\ invoke_play ctx (Some search) (Some p)
     = (Raise AttributeError, Some p, []).
Proof.
  intros Hav Hsame Hvoice Hne Hre.
  assert (Hps : the_play_song ctx None search (Some p)
                = (Raise AttributeError, Some p, [])).
  { unfold the_play_song, play_song, the_player.
    rewrite bind_assoc, bind_get. cbn [attr]. rewrite bind_ret_l, Hvoice.
    rewrite bind_ret_l. reflexivity. }
  split; [exact Hps|].
  unfold invoke_play.
  rewrite invoke_hooked_passes
    by (reflexivity || exact (ensure_player_passes _ _ _ _ _ Hav Hsame)).
  unfold the_play, play, callback. rewrite bind_get, bind_ret_l.
  apply String.eqb_neq in Hne. rewrite Hne. cbn [andb].
  unfold the_player. rewrite bind_assoc, bind_get. cbn [attr].
  rewrite !bind_ret_l.
  destruct Hre as [Hre|(t & q & Hre & Hin)]; rewrite Hre.
  - exact Hps.
  - rewrite Hin. exact Hps.
Qed.

(** X20.  [play], for a caller the hook lets through: a recognised prefix
    is matched without regard to letter case and selects the source, and the
    text after the prefix becomes the query handed to [play_song].  For the
    bin source [play_song] then fails with [TypeError] (for a connected
    player, with nothing sent or enqueued): it invokes [playbin] with the
    address as a positional argument, which [playbin] does not take. *)
Theorem play_with_prefix (ctx : Ctx.t) (search their_type query : string)
    (p : Player.t) (lt : LocationType) (channel : Channel.t) :
  Ctx.author_voice ctx = Some channel ->
  (forall client, voice_client = Some client ->
     Channel.id (VoiceClient.channel client) = Channel.id channel) ->
  search <> "" ->
  type_regex_match search = Some (their_type, query) ->
  In (lt, lower their_type)
     [(youtube, "youtube"); (youtube, "yt"); (db, "database"); (db, "db");
      (bin, "bin")] ->
  invoke_play ctx (Some search) (Some p)
  = the_play_song ctx (Some lt) query (Some p)
  /\ (lt = bin -> Player.voice p <> None ->
      invoke_play ctx (Some search) (Some p) = (Raise TypeError, Some p, [])).
Proof.
  intros Hav Hsame Hne Hre Hin.
  assert (Hrun : invoke_play ctx (Some search) (Some p)
                 = the_play_song ctx (Some lt) query (Some p)).
  { unfold invoke_play.
    rewrite invoke_hooked_passes
      by (reflexivity || exact (ensure_player_passes _ _ _ _ _ Hav Hsame)).
    unfold the_play, play, callback. rewrite bind_get, bind_ret_l.
    apply String.eqb_neq in Hne. rewrite Hne. cbn [andb].
    unfold the_player. rewrite bind_assoc, bind_get. cbn [attr].
    rewrite !bind_ret_l, Hre.
    destruct Hin as [H|[H|[H|[H|[H|[]]]]]]; injection H as <- <-; reflexivity. }
  split; [exact Hrun|].
  intros -> Hvoice. rewrite Hrun.
  unfold the_play_song, play_song, the_player.
  rewrite bind_assoc, bind_get. cbn [attr]. rewrite bind_ret_l.
  destruct (Player.voice p); [|congruence].
  rewrite bind_ret_l. reflexivity.
Qed.

(** X21.  [play] without a search text, for a caller the hook lets through
    and a connected player with a current song: the song is resumed only
    when one is playing, the sink is paused and the caller has the
    manage-guild permission (a DJ role or the developer id do not count
    here); otherwise the caller is asked for a song and nothing changes. *)
Theorem play_without_search (ctx : Ctx.t) (search : option string)
    (p : Player.t) (vc : VoiceClient.t) (cur : Song.t) (channel : Channel.t) :
  Ctx.author_voice ctx = Some channel ->
  (forall client, voice_client = Some client ->
     Channel.id (VoiceClient.channel client) = Channel.id channel) ->
  search = None \/ search = Some "" ->
  Player.voice p = Some vc ->
  Player.current p = Some cur ->
  invoke_play ctx search (Some p)
  = if is_playing p && VoiceClient.is_paused vc
       && Member.manage_guild (Ctx.author ctx)
    then (Ok tt, Some (Player.resume p),
          [PlayerResume;
           Send (Ctx.channel ctx)
             ("**:arrow_forward: Resuming** `" +:+ Song.title cur +:+ "`")])
    else (Ok tt, Some p,
          [Send (Ctx.channel ctx) "Please specify a song to play/search for."]).
Proof.
  intros Hav Hsame Hs Hvoice Hcur. unfold invoke_play.
  rewrite invoke_hooked_passes
    by (reflexivity || exact (ensure_player_passes _ _ _ _ _ Hav Hsame)).
  unfold the_play, play, callback. rewrite bind_get, bind_ret_l.
  unfold the_player at 1. rewrite bind_assoc, bind_get. cbn [attr].
  rewrite bind_ret_l.
  assert (Hno : match search with
                | Some text => String.eqb text ""
                | None => true
                end = true) by (destruct Hs as [->| ->]; reflexivity).
  rewrite Hno. cbn [andb].
  destruct (is_playing p); cbn [andb].
  - rewrite Hvoice. cbn [attr]. rewrite bind_assoc, !bind_ret_l.
    destruct (VoiceClient.is_paused vc && Member.manage_guild (Ctx.author ctx)).
    + cbv [update the_player bind get put attr ret send emit]. cbn.
      rewrite resume_current, Hcur. reflexivity.
    + destruct Hs as [->| ->]; reflexivity.
  - rewrite bind_ret_l. destruct Hs as [->| ->]; reflexivity.
Qed.

End PlayFacts.

Lemma play_without_prefix_fails_witness :
  let listeners := [human 1; robot 9] in
  let p := streaming listeners song_a [] no_votes in
  invoke_hooked (ensure_player "!" (Some (sink SinkPlaying listeners)))
    (play has_song Song.title (fun _ => lonely []) (fun _ => "general")
       (fun _ => Raise ClientError)
       (fun _ => after 1 (Some song_b)) (fun _ => after 1 None)
       (fun _ => after 1 ([], 0))
       (fun _ => false) (fun _ => false) (fun _ => None))
    (ctx_in_room (human 1) listeners) (Some "hat kid electro") (Some p)
  = (Raise AttributeError, Some p, []).
Proof.
  cbv zeta.
  refine (proj2 (play_without_prefix_fails has_song Song.title (fun _ => lonely [])
    (fun _ => "general") (fun _ => Raise ClientError)
    (fun _ => after 1 (Some song_b)) (fun _ => after 1 None)
    (fun _ => after 1 ([], 0))
    (fun _ => false) (fun _ => false) (fun _ => None)
    "!" (Some (sink SinkPlaying [human 1; robot 9]))
    (ctx_in_room (human 1) [human 1; robot 9]) "hat kid electro"
    (streaming [human 1; robot 9] song_a [] no_votes)
    (sink SinkPlaying [human 1; robot 9]) (room [human 1; robot 9])
    eq_refl _ eq_refl _ (or_introl eq_refl))).
  - intros client [= <-]. reflexivity.
  - discriminate.
Defined.

Lemma play_with_prefix_witness :
  let listeners := [human 1; robot 9] in
  let p := streaming listeners song_a [] no_votes in
  let resolver := fun _ : string => after 1 (Some song_b) in
  let nothing := fun _ : string => after 1 (@None Song.t) in
  invoke_hooked (ensure_player "!" (Some (sink SinkPlaying listeners)))
    (play has_song Song.title (fun _ => lonely []) (fun _ => "general")
       (fun _ => Raise ClientError) resolver nothing
       (fun _ => after 1 ([], 0))
       (fun _ => false) (fun _ => false) (fun _ => Some ("YT", "hat kid")))
    (ctx_in_room (human 1) listeners) (Some "YT: hat kid") (Some p)
  = play_song has_song Song.title (fun _ => lonely []) (fun _ => "general")
      (fun _ => Raise ClientError) resolver nothing
      (fun _ => after 1 ([], 0))
      (fun _ => false) (fun _ => false)
      (ctx_in_room (human 1) listeners) (Some youtube) "hat kid" (Some p).
Proof.
  cbv zeta.
  refine (proj1 (play_with_prefix has_song Song.title (fun _ => lonely [])
    (fun _ => "general") (fun _ => Raise ClientError)
    (fun _ => after 1 (Some song_b)) (fun _ => after 1 None)
    (fun _ => after 1 ([], 0))
    (fun _ => false) (fun _ => false) (fun _ => Some ("YT", "hat kid"))
    "!" (Some (sink SinkPlaying [human 1; robot 9]))
    (ctx_in_room (human 1) [human 1; robot 9]) "YT: hat kid" "YT" "hat kid"
    (streaming [human 1; robot 9] song_a [] no_votes) youtube
    (room [human 1; robot 9]) eq_refl _ _ eq_refl _)).
  - intros client [= <-]. reflexivity.
  - discriminate.
  - right. left. reflexivity.
Defined.

(** A paused song, and a caller in the channel whose only privilege is the
    developer id. *)
Lemma play_without_search_witness :
  let listeners := [developer; robot 9] in
  let p := Player.pause (streaming listeners song_a [] no_votes) in
  invoke_hooked (ensure_player "!" (Some (sink SinkPaused listeners)))
    (play has_song Song.title (fun _ => lonely []) (fun _ => "general")
       (fun _ => Raise ClientError)
       (fun _ => after 1 (Some song_b)) (fun _ => after 1 None)
       (fun _ => after 1 ([], 0))
       (fun _ => false) (fun _ => false) (fun _ => None))
    (ctx_in_room developer listeners) None (Some p)
  = (Ok tt, Some p, [Send 5 "Please specify a song to play/search for."]).
Proof.
  cbv zeta.
  refine (play_without_search has_song Song.title (fun _ => lonely [])
    (fun _ => "general") (fun _ => Raise ClientError)
    (fun _ => after 1 (Some song_b)) (fun _ => after 1 None)
    (fun _ => after 1 ([], 0))
    (fun _ => false) (fun _ => false) (fun _ => None)
    "!" (Some (sink SinkPaused [developer; robot 9]))
    (ctx_in_room developer [developer; robot 9]) None
    (Player.pause (streaming [developer; robot 9] song_a [] no_votes))
    (sink SinkPaused [developer; robot 9]) song_a (room [developer; robot 9])
    eq_refl _ (or_introl eq_refl) eq_refl eq_refl).
  intros client [= <-]. reflexivity.
Defined.

Section JoinFacts.

Variable new_player : Ctx.t -> Player.t.
Variable channel_name : Z -> string.
Variable connect : Channel.t -> result VoiceClient.t.
Variable get_song : string -> reply (option Song.t).
Variable YT_URLS_findall : string -> list string.
Variable splitlines : string -> list string.
Variable urlparse : string -> string * string * string.
Variable http_get : string -> reply (Z * string).
Variable confirm : string -> bool.
Variable URLS_match : string -> bool.
Variable prefix : string.
Variable voice_client : option VoiceClient.t.

Let the_join := join new_player channel_name connect.
Let the_playbin :=
  playbin new_player channel_name connect get_song URLS_match YT_URLS_findall
    splitlines urlparse http_get confirm.

(** The [join] command as the framework runs it. *)
Let invoke_join := invoke_hooked (ensure_player prefix voice_client) the_join.

(** X22.  [playbin] by a caller who is in no voice channel, in a guild
    without a player: the player is created first, the join it needs then
    fails with [AttributeError], and the new player stays behind, unbound and
    unconnected; no bin is fetched. *)
Theorem playbin_outside_voice (ctx : Ctx.t) (url : string) :
  Ctx.author_voice ctx = None ->
  Player.voice (new_player ctx) = None ->
  invoke the_playbin ctx url None
  = (Raise AttributeError, Some (new_player ctx), []).
Proof.
  intros Hav Hnv. rewrite invoke_unchecked by reflexivity.
  unfold the_playbin, playbin, join, callback.
  cbv [create_player update the_player bind get put attr ret send emit]. cbn.
  rewrite Hnv. cbn. rewrite Hav. reflexivity.
Qed.

(** X23.  The [join] command.  Its hook refuses, with [CommandError] and
    nothing changed, a caller who is in no voice channel, and a caller in
    another channel than the one the bot's voice client is in (the message
    then hints at [summon] exactly for callers who pass [is_dj]).  For a
    caller it lets through, in the channel [destination]: a player that has a
    voice client is moved (the client keeps its playback status and no new
    connection is made); otherwise a connection is opened and the bot deafens
    itself.  Either way the player is bound to the text channel of the
    command, and queue, current song and ledger are untouched.  When the
    connection fails the exception passes through; the player is already
    bound to the new text channel then, and still has no voice client. *)
Theorem join_run (ctx : Ctx.t) (p : Player.t) :
  let bound := Player.set_text_channel (Ctx.channel ctx) p in
  let connected (destination : Channel.t) :=
    Send (Ctx.channel ctx)
      ("**Connected to ** <:voice_channel:665577300552843294>`"
       +:+ channel_name (Channel.id destination)
       +:+ "` and **bound to** <:text_channel:661798072384225307>`"
       +:+ channel_name (Ctx.channel ctx) +:+ "`") in
  (Ctx.author_voice ctx = None ->
   invoke_join ctx tt (Some p)
   = (Raise (CommandError "You are not connected to a voice channel."),
      Some p, []))
  /\ (forall destination client,
        Ctx.author_voice ctx = Some destination ->
        voice_client = Some client ->
        Channel.id (VoiceClient.channel client) <> Channel.id destination ->
        invoke_join ctx tt (Some p)
        = (Raise (CommandError
                    ("Bot is in another voice channel."
                     +:+ (if is_dj ctx
                          then " Use `" +:+ prefix
                               +:+ "summon` to summon the bot to a channel."
                          else ""))),
           Some p, []))
  /\ (forall destination,
        Ctx.author_voice ctx = Some destination ->
        (forall client, voice_client = Some client ->
           Channel.id (VoiceClient.channel client) = Channel.id destination) ->
        invoke_join ctx tt (Some p)
        = match Player.voice p with
          | Some vc =>
              (Ok tt,
               Some (Player.set_voice
                       (Some (VoiceClient.move_to destination vc)) bound),
               [VoiceMove (Channel.id destination); connected destination])
          | None =>
              match connect destination with
              | Ok vc =>
                  (Ok tt, Some (Player.set_voice (Some vc) bound),
                   [VoiceConnect (Channel.id destination);
                    SelfDeafen (Channel.id destination);
                    connected destination])
              | Raise e =>
                  (Raise e, Some bound, [VoiceConnect (Channel.id destination)])
              end
          end).
Proof.
  cbv zeta. split; [|split].
  - intros Hav. unfold invoke_join, invoke_hooked, the_join.
    cbn [checks join forallb]. unfold ensure_player. rewrite Hav. reflexivity.
  - intros destination client Hav -> Hne.
    unfold invoke_join, invoke_hooked, the_join.
    cbn [checks join forallb]. unfold ensure_player, Channel.eqb. rewrite Hav.
    destruct (_ =? _) eqn:E; [lia|]. reflexivity.
  - intros destination Hav Hsame. unfold invoke_join.
    rewrite invoke_hooked_passes
      by (reflexivity || exact (ensure_player_passes _ _ _ _ _ Hav Hsame)).
    unfold the_join, join, callback.
    rewrite bind_get, bind_ret_l, Hav. cbn [attr]. rewrite bind_ret_l.
    cbv [update the_player bind get put attr ret send emit]. cbn.
    destruct (Player.voice p) as [vc|]; [reflexivity|].
    destruct (connect destination) as [vc|e]; reflexivity.
Qed.

End JoinFacts.

Lemma playbin_outside_voice_witness :
  invoke (playbin (fun _ => Player.set_voice None (lonely [])) (fun _ => "general")
            (fun _ => Raise ClientError) (fun _ => after 1 None)
            (fun _ => true) (fun _ => []) (fun _ => [])
            (fun _ => ("", "", "")) (fun _ => after 1 (404, "")) (fun _ => false))
    (ctx_of (human 1)) "https://mystb.in/abc" None
  = (Raise AttributeError, Some (Player.set_voice None (lonely [])), []).
Proof.
  exact (playbin_outside_voice (fun _ => Player.set_voice None (lonely []))
           (fun _ => "general") (fun _ => Raise ClientError)
           (fun _ => after 1 None) (fun _ => []) (fun _ => [])
           (fun _ => ("", "", "")) (fun _ => after 1 (404, "")) (fun _ => false)
           (fun _ => true) (ctx_of (human 1)) "https://mystb.in/abc"
           eq_refl eq_refl).
Defined.

(** The bot plays in channel 10; a moderator sitting in channel 20 asks it
    to join and is refused, with the hint. *)
Lemma join_run_witness :
  let elsewhere := {| Channel.id := 20; Channel.members := [moderator 1] |} in
  let ctx := {| Ctx.author := moderator 1; Ctx.guild_roles := [];
                Ctx.author_voice := Some elsewhere;
                Ctx.guild_id := 1; Ctx.channel := 7 |} in
  let p := streaming [human 2; robot 9] song_a [song_b] no_votes in
  invoke_hooked (ensure_player "!" (Some (sink SinkPlaying [human 2; robot 9])))
    (join (fun _ => p) (fun _ => "general") (fun _ => Raise ClientError))
    ctx tt (Some p)
  = (Raise (CommandError
       "Bot is in another voice channel. Use `!summon` to summon the bot to a channel."),
     Some p, []).
Proof.
  cbv zeta.
  refine (proj1 (proj2 (join_run
            (fun _ => streaming [human 2; robot 9] song_a [song_b] no_votes)
            (fun _ => "general") (fun _ => Raise ClientError) "!"
            (Some (sink SinkPlaying [human 2; robot 9]))
            {| Ctx.author := moderator 1; Ctx.guild_roles := [];
               Ctx.author_voice :=
                 Some {| Channel.id := 20; Channel.members := [moderator 1] |};
               Ctx.guild_id := 1; Ctx.channel := 7 |}
            (streaming [human 2; robot 9] song_a [song_b] no_votes)))
            _ _ eq_refl eq_refl _).
  discriminate.
Defined.

(** X24.  What [queue save] posts for a player is what the inactivity
    timeout posts for it: the two paths send the same document to the paste
    service. *)
Theorem save_and_timeout_post_alike (paste_key : string -> result string)
    (ctx : Ctx.t) (guild : Z) (member : Member.t)
    (before after : option Channel.t) (updates : list voice_update)
    (b : Bot.t) (r : N) (p : Player.t) (vc : VoiceClient.t) (cur : Song.t) :
  Member.bot member = false ->
  Bot.players b !! guild = Some r ->
  Bot.objects b !! r = Some p ->
  Player.voice p = Some vc ->
  non_bots (Channel.members (VoiceClient.channel vc)) = [] ->
  (forall u, In u updates -> at_second u <= 120 ->
     check (VoiceClient.channel vc) (who u) (before_channel u) (after_channel u)
     = false) ->
  Player.songs p <> [] ->
  Player.current p = Some cur ->
  forall url body,
    In (HttpPost url body)
       (trace (invoke (_save_queue paste_key) ctx tt (Some p)))
    <-> In (HttpPost url body)
           (trace (on_voice_leave paste_key guild member before after updates b)).
Proof.
  intros Hperson Hreg Hobj Hvoice Hempty Hnobody Hq Hcur url body.
  rewrite (save_queue_equation paste_key ctx p cur Hq Hcur).
  destruct (paste_key (Py.join nl (Song.url cur :: map Song.url (Player.songs p))))
    as [key|e] eqn:Hkey.
  - rewrite (timeout_run_saved paste_key guild member before after updates b r p
               vc Hperson Hreg Hobj Hvoice Hempty Hnobody cur Hcur key Hq Hkey).
    cbn. intuition discriminate.
  - rewrite (timeout_run_failed paste_key guild member before after updates b r p
               vc Hperson Hreg Hobj Hvoice Hempty Hnobody cur Hcur e Hq Hkey).
    cbn. intuition discriminate.
Qed.

(** The listener comes back five seconds after the deadline. *)
Lemma save_and_timeout_post_alike_witness :
  let p := lonely [song_b; song_c] in
  let doc := HttpPost "https://mystb.in/documents"
               (Py.join nl ["https://youtu.be/a"; "https://youtu.be/b";
                            "https://youtu.be/c"]) in
  In doc (trace (on_voice_leave paste_ok 1 (human 1) (Some (room [robot 9])) None
                   [arrival 125 (human 1)] (bot_with p))).
Proof.
  cbv zeta.
  assert (Hnobody : forall u, In u [arrival 125 (human 1)] -> at_second u <= 120 ->
            check (VoiceClient.channel (sink SinkPlaying [robot 9]))
              (who u) (before_channel u) (after_channel u) = false).
  { intros u [<-|[]] H. cbn in H. lia. }
  apply (save_and_timeout_post_alike paste_ok (ctx_of (human 1)) 1 (human 1)
           (Some (room [robot 9])) None [arrival 125 (human 1)]
           (bot_with (lonely [song_b; song_c]))
           0%N (lonely [song_b; song_c]) (sink SinkPlaying [robot 9]) song_a
           eq_refl eq_refl eq_refl eq_refl eq_refl
           Hnobody ltac:(discriminate) eq_refl).
  rewrite (save_queue_equation paste_ok (ctx_of (human 1)) (lonely [song_b; song_c])
             song_a ltac:(discriminate) eq_refl).
  left. reflexivity.
Defined.
